(** * Songs dashboard: data preparation, aggregation and filtering

    A shallow embedding of [Python_project.py], a Streamlit script over a
    pandas DataFrame of songs, and the properties of its loader, its
    aggregations and its filter.

    The script is modelled at two levels, as Python has them:
    - expressions over DataFrames ([df['Genre'].isin(...)], [df[mask]],
      [df.groupby(...).size()], ...) are pure functions into [res], the
      error monad of Python exceptions;
    - statements ([df['release_year'] = ...], [st.error(...)], [st.stop()],
      [try ... except]) are computations of the [script] monad over a
      [world]: the DataFrame objects alive, the files on disk, what has
      been written to the page, and the Unicode database of the interpreter,
      which says what a decimal digit is.

    The pandas and Streamlit operations are external libraries; each is
    given here by its documented behaviour on the cell kinds of the model. *)

From Stdlib Require Import ZArith QArith String Ascii List Lia.
From Stdlib Require Qcanon.
From stdpp Require Import gmap strings list pretty sorting.

Local Open Scope string_scope.
Local Open Scope list_scope.

(** ** Cell values *)

(** A calendar date, the value of a [datetime64] cell at midnight. *)
Record date := Date { year : Z; month : Z; day : Z }.

(** What a DataFrame cell holds: a Python string (its UTF-8 text), an
    integer, a finite float (the rational it stands for; the arithmetic on
    floats rounds, see [Float64]), a Timestamp, or the missing value (NaN
    for numbers and objects, NaT for datetimes). *)
Inductive value :=
  | VStr (s : string)
  | VInt (n : Z)
  | VFloat (q : Q)
  | VTime (d : date)
  | VNaN.

Global Instance date_eq_dec : EqDecision date.
Proof. solve_decision. Defined.
Global Instance Q_eq_dec : EqDecision Q.
Proof. solve_decision. Defined.
Global Instance value_eq_dec : EqDecision value.
Proof. solve_decision. Defined.

(** [pd.isna] on one cell. *)
Definition isna (v : value) : bool :=
  match v with VNaN => true | _ => false end.

(** ** Exceptions and the error monad of expressions *)

Inductive exn :=
  | FileNotFoundError (msg : string)
  | KeyError (key : string)
  | TypeError (msg : string)
  | ValueError (msg : string)
  | AttributeError (msg : string)
  | ParserError (msg : string).

(** [str(e)], as the f-string of [load_data] prints it. *)
Definition str_exn (e : exn) : string :=
  match e with
  | FileNotFoundError msg => msg
  | KeyError key => "'" +:+ key +:+ "'"
  | TypeError msg => msg
  | ValueError msg => msg
  | AttributeError msg => msg
  | ParserError msg => msg
  end.

(** [isinstance(e, FileNotFoundError)]; every [exn] is an [Exception]. *)
Definition is_FileNotFoundError (e : exn) : bool :=
  match e with FileNotFoundError _ => true | _ => false end.

Inductive res (A : Type) :=
  | Ok (a : A)
  | Err (e : exn).
Arguments Ok {A} a.
Arguments Err {A} e.

Global Instance res_ret : MRet res := λ A a, Ok a.
Global Instance res_bind : MBind res := λ A B f m,
  match m with Ok a => f a | Err e => Err e end.
Global Instance res_fmap : FMap res := λ A B f m,
  match m with Ok a => Ok (f a) | Err e => Err e end.

(** Elementwise application of a partial operation over a Series: the first
    cell that raises aborts the whole operation. *)
Fixpoint traverse {A B} (f : A → res B) (l : list A) : res (list B) :=
  match l with
  | [] => Ok []
  | x :: l => y ← f x; k ← traverse f l; Ok (y :: k)
  end.

(** ** DataFrames *)

(** A row maps column labels to cells. *)
Abbreviation row := (gmap string value).

(** A DataFrame: its column labels in order and its rows in order. *)
Record DataFrame := { columns : list string; rows : list row }.

(** A Series: the cells of one column, row by row. *)
Abbreviation Series := (list value).

Definition cell (c : string) (r : row) : value := default VNaN (r !! c).

(** [len(df)] *)
Definition len (df : DataFrame) : nat := length (rows df).

(** [df[c]] for a column label [c]. *)
Definition getitem (df : DataFrame) (c : string) : res Series :=
  if decide (c ∈ columns df) then Ok (cell c <$> rows df)
  else Err (KeyError c).

(** [s.isin(values)] for a list of strings. *)
Definition isin (s : Series) (values : list string) : list bool :=
  (λ v, match v with
        | VStr g => bool_decide (g ∈ values)
        | _ => false
        end) <$> s.

Definition cmp_error : exn :=
  TypeError "comparison not supported between these operand types".

(** [v >= k] and [v <= k] for one cell and a Python int: numbers compare,
    a missing value compares false, a string or a Timestamp raises. *)
Definition ge_scalar (k : Z) (v : value) : res bool :=
  match v with
  | VInt n => Ok (k <=? n)%Z
  | VFloat q => Ok (Qle_bool (inject_Z k) q)
  | VNaN => Ok false
  | VStr _ | VTime _ => Err cmp_error
  end.

Definition le_scalar (k : Z) (v : value) : res bool :=
  match v with
  | VInt n => Ok (n <=? k)%Z
  | VFloat q => Ok (Qle_bool q (inject_Z k))
  | VNaN => Ok false
  | VStr _ | VTime _ => Err cmp_error
  end.

(** [s >= k], [s <= k] *)
Definition series_ge (s : Series) (k : Z) : res (list bool) :=
  traverse (ge_scalar k) s.
Definition series_le (s : Series) (k : Z) : res (list bool) :=
  traverse (le_scalar k) s.

(** [a & b] on boolean Series of one DataFrame. *)
Definition mask_and (a b : list bool) : list bool := zip_with andb a b.
Infix "&&&" := mask_and (at level 40, left associativity).

(** The rows a boolean mask selects, in order. *)
Fixpoint select (rs : list row) (mask : list bool) : list row :=
  match rs, mask with
  | r :: rs, b :: mask => if b then r :: select rs mask else select rs mask
  | _, _ => []
  end.

(** [df[mask]] for a boolean Series: a new DataFrame. *)
Definition getitem_mask (df : DataFrame) (mask : list bool) : res DataFrame :=
  if decide (length mask = len df)
  then Ok {| columns := columns df; rows := select (rows df) mask |}
  else Err (ValueError "Item wrong length").

(** [df[c] = s]: the column is replaced where it is, or appended. *)
Definition setitem (df : DataFrame) (c : string) (s : Series) : res DataFrame :=
  if decide (length s = len df)
  then Ok {| columns := if decide (c ∈ columns df) then columns df
                        else columns df ++ [c];
             rows := zip_with (λ r v, <[c:=v]> r) (rows df) s |}
  else Err (ValueError "Length of values does not match length of index").

(** [df.dropna(subset=[c])]: a new DataFrame without the rows whose cell in
    column [c] is missing. *)
Definition dropna (df : DataFrame) (c : string) : res DataFrame :=
  s ← getitem df c;
  Ok {| columns := columns df; rows := select (rows df) (negb ∘ isna <$> s) |}.

(** ** The filter of the song explorer (lines 227-233) *)

Definition filtered_df (df : DataFrame) (selected_genres : list string)
    (selected_year_range selected_pop_range : Z * Z) : res DataFrame :=
  genre ← getitem df "Genre";
  let m1 := isin genre selected_genres in
  y ← getitem df "release_year";
  m2 ← series_ge y (selected_year_range.1);
  y ← getitem df "release_year";
  m3 ← series_le y (selected_year_range.2);
  p ← getitem df "Popularity";
  m4 ← series_ge p (selected_pop_range.1);
  p ← getitem df "Popularity";
  m5 ← series_le p (selected_pop_range.2);
  getitem_mask df (m1 &&& m2 &&& m3 &&& m4 &&& m5).

(** ** Python strings

    A Python string is a sequence of code points; [pd.read_csv] decodes the
    file as UTF-8, and a cell holds the text in that encoding. A byte that
    belongs to no well-formed sequence cannot come out of [read_csv]; it is
    read here as Python's [surrogateescape] handler reads it, as the lone
    surrogate [U+DC00 + b]. *)

Definition ord (c : ascii) : Z := Z.of_N (N_of_ascii c).

Definition continuation (b : Z) : bool := (0x80 <=? b)%Z && (b <? 0xC0)%Z.

Fixpoint decode (bs : list Z) : list Z :=
  match bs with
  | [] => []
  | b :: t =>
      let escaped := (0xDC00 + b)%Z :: decode t in
      if (b <? 0x80)%Z then b :: decode t
      else match t with
      | [] => escaped
      | c1 :: t1 =>
          if (0xC2 <=? b)%Z && (b <? 0xE0)%Z && continuation c1
          then ((b - 0xC0) * 64 + (c1 - 0x80))%Z :: decode t1
          else match t1 with
          | [] => escaped
          | c2 :: t2 =>
              let cp := ((b - 0xE0) * 4096 + (c1 - 0x80) * 64 + (c2 - 0x80))%Z in
              if (0xE0 <=? b)%Z && (b <? 0xF0)%Z && continuation c1 && continuation c2
                 && (0x800 <=? cp)%Z && negb ((0xD800 <=? cp)%Z && (cp <? 0xE000)%Z)
              then cp :: decode t2
              else match t2 with
              | [] => escaped
              | c3 :: t3 =>
                  let cp := ((b - 0xF0) * 262144 + (c1 - 0x80) * 4096
                             + (c2 - 0x80) * 64 + (c3 - 0x80))%Z in
                  if (0xF0 <=? b)%Z && (b <? 0xF8)%Z && continuation c1
                     && continuation c2 && continuation c3
                     && (0x10000 <=? cp)%Z && (cp <? 0x110000)%Z
                  then cp :: decode t3
                  else escaped
              end
          end
      end
  end.

Definition code_points (s : string) : list Z := decode (ord <$> list_ascii_of_string s).

(** ** Parsing the release date

    [pd.to_datetime(s, format='%d-%m-%Y', errors='coerce')] matches each
    string against the regular expression that [strptime] builds from the
    format, requires the match to cover the whole string and builds the
    calendar date with [datetime.date]; a cell that fails any step becomes
    NaT. Every date of [datetime.date], from year 1 to year 9999, is within
    the range of the Timestamps that pandas makes of parsed strings.

    In the regular expression [\d] is any decimal digit of Unicode, and
    [int] reads every such digit by its value. Which characters these are
    is a table of the interpreter's Unicode database: below U+0080 they are
    [0] to [9]; above, they come in runs of ten, and the table [zeros] lists
    the code point of the zero of each run. *)

Module Strptime.

Local Open Scope char_scope.
Local Open Scope Z_scope.

(** A backtracking matcher: every way to match a prefix of the input, in
    the order the regex engine tries them, with the text matched and the
    input left. *)
Abbreviation regex := (list Z → list (list Z * list Z)).

Section unicode.

Variable zeros : list Z.

(** The value of a decimal digit, [None] for any other character. *)
Definition decimal (c : Z) : option Z :=
  if c <? 0x80
  then (if (ord "0" <=? c) && (c <=? ord "9") then Some (c - ord "0") else None)
  else (λ z, c - z) <$> find (λ z, (z <=? c) && (c <? z + 10)) zeros.

(** [[lo-hi]] *)
Definition cls (lo hi : ascii) : regex := λ s,
  match s with
  | c :: t => if (ord lo <=? c) && (c <=? ord hi) then [([c], t)] else []
  | [] => []
  end.
Definition chr (c : ascii) : regex := cls c c.
(** [\d] *)
Definition digit : regex := λ s,
  match s with
  | c :: t => match decimal c with Some _ => [([c], t)] | None => [] end
  | [] => []
  end.
Definition eps : regex := λ s, [([], s)].
Definition cat (p q : regex) : regex := λ s,
  '(a, t) ← p s; '(b, u) ← q t; [((a ++ b)%list, u)].
(** Concatenation, and alternatives tried from left to right. *)
Definition seq (ps : list regex) : regex := foldr cat eps ps.
Definition alts (ps : list regex) : regex := λ s, p ← ps; p s.

(** [%d]: [3[0-1]|[1-2]\d|0[1-9]|[1-9]| [1-9]] *)
Definition re_d : regex :=
  alts [seq [chr "3"; cls "0" "1"]; seq [cls "1" "2"; digit];
        seq [chr "0"; cls "1" "9"]; cls "1" "9"; seq [chr " "; cls "1" "9"]].
(** [%m]: [1[0-2]|0[1-9]|[1-9]] *)
Definition re_m : regex :=
  alts [seq [chr "1"; cls "0" "2"]; seq [chr "0"; cls "1" "9"]; cls "1" "9"].
(** [%Y]: [\d\d\d\d] *)
Definition re_Y : regex := seq [digit; digit; digit; digit].

(** [int(text)] on a matched group: decimal digits, blanks skipped. *)
Definition int (text : list Z) : Z :=
  foldl (λ n c, if c =? ord " " then n else 10 * n + default 0 (decimal c)) 0 text.

Definition is_leap (y : Z) : bool :=
  (y mod 4 =? 0) && (negb (y mod 100 =? 0) || (y mod 400 =? 0)).

Definition days_in_month (y m : Z) : Z :=
  if m =? 2 then (if is_leap y then 29 else 28)
  else if (m =? 4) || (m =? 6) || (m =? 9) || (m =? 11) then 30
  else 31.

(** [datetime.date(y, m, d)] accepts the date. *)
Definition valid_date (d : date) : bool :=
  (1 <=? year d) && (year d <=? 9999) &&
  (1 <=? month d) && (month d <=? 12) &&
  (1 <=? day d) && (day d <=? days_in_month (year d) (month d)).

Definition date_leb (a b : date) : bool :=
  (year a <? year b) ||
  ((year a =? year b) &&
   ((month a <? month b) || ((month a =? month b) && (day a <=? day b)))).

(** One string against [%d-%m-%Y]: the first match of the expression, which
    has to end where the string ends. *)
Definition strptime (val : string) : option date :=
  let found :=
    '(d, s) ← re_d (code_points val);
    '(_, s) ← chr "-" s;
    '(m, s) ← re_m s;
    '(_, s) ← chr "-" s;
    '(y, s) ← re_Y s;
    [(Date (int y) (int m) (int d), s)] in
  match found with
  | (d, []) :: _ => if valid_date d then Some d else None
  | _ => None
  end.

End unicode.

End Strptime.

(** One cell of [pd.to_datetime(..., format='%d-%m-%Y', errors='coerce')].
    The text of a number has no inner dash, so it never matches. *)
Definition to_datetime_cell (zeros : list Z) (v : value) : value :=
  match v with
  | VStr s => match Strptime.strptime zeros s with Some d => VTime d | None => VNaN end
  | VTime d => VTime d
  | VInt _ | VFloat _ | VNaN => VNaN
  end.

Definition to_datetime (zeros : list Z) (s : Series) : Series :=
  to_datetime_cell zeros <$> s.

(** [s.dt.year]: defined on a datetime column only. The years are integers
    when every cell has a date; when some cell is NaT the result is a
    float64 column, with NaN for NaT. *)
Definition year_cell (floating : bool) (v : value) : value :=
  match v with
  | VTime d => if floating then VFloat (inject_Z (year d)) else VInt (year d)
  | _ => VNaN
  end.

Definition dt_year (s : Series) : res Series :=
  traverse (λ v, match v with
                 | VTime _ | VNaN => Ok (year_cell (existsb isna s) v)
                 | _ => Err (AttributeError "Can only use .dt accessor with datetimelike values")
                 end) s.

(** [int(text)] for a decimal literal with an optional sign. *)
Definition int_of_string (s : string) : option Z :=
  let digits (t : list ascii) : option Z :=
    if bool_decide (t ≠ []) && forallb (λ c, (48 <=? ord c)%Z && (ord c <=? 57)%Z) t
    then Some (foldl (λ n c, 10 * n + (ord c - 48))%Z 0%Z t) else None in
  match list_ascii_of_string s with
  | "-"%char :: t => Z.opp <$> digits t
  | "+"%char :: t => digits t
  | t => digits t
  end.

(** [s.astype(int)]: a float is truncated towards zero. *)
Definition astype_int (s : Series) : res Series :=
  traverse (λ v, match v with
                 | VInt n => Ok (VInt n)
                 | VFloat q => Ok (VInt (Z.quot (Qnum q) (Zpos (Qden q))))
                 | VNaN => Err (ValueError "Cannot convert non-finite values (NA or inf) to integer")
                 | VStr t => match int_of_string t with
                             | Some n => Ok (VInt n)
                             | None => Err (ValueError "invalid literal for int()")
                             end
                 | VTime _ => Err (TypeError "cannot astype a datetimelike to int")
                 end) s.

(** ** The world of the script and the monad of its statements *)

(** What [pd.read_csv] makes of one field of a delimited text file: text,
    an integer, a float, or a missing value for an empty field. It never
    makes a Timestamp: the script does not ask it to parse dates. *)
Inductive field :=
  | FStr (s : string)
  | FInt (n : Z)
  | FFloat (q : Q)
  | FEmpty.

Definition value_of (f : field) : value :=
  match f with
  | FStr s => VStr s
  | FInt n => VInt n
  | FFloat q => VFloat q
  | FEmpty => VNaN
  end.

(** A parsed file: the header row and the records under it. *)
Record table := { header : list string; records : list (gmap string field) }.

Definition frame_of (t : table) : DataFrame :=
  {| columns := header t;
     rows := (λ rec : gmap string field, value_of <$> rec) <$> records t |}.

(** What [pd.read_csv] finds at a path: a table it can parse, or content it
    cannot read (malformed rows, a wrong encoding, no data). *)
Inductive file :=
  | Table (t : table)
  | Unreadable (msg : string).

(** What Streamlit has drawn on the page. *)
Inductive element :=
  | error_box (body : string)
  | warning_box (body : string)
  | subheader (body : string)
  | title (body : string)
  | dataframe (data : DataFrame).

(** A DataFrame variable holds a reference to an object. *)
Abbreviation loc := nat.

(** The world of a run: the DataFrame objects alive, the files on disk,
    what has been drawn on the page, and the decimal digits of the
    interpreter's Unicode database (the zero of each run of ten above
    U+0080), which differ from one version of Python to the next. *)
Record world := {
  objects : list DataFrame;
  files : gmap string file;
  page : list element;
  decimal_zeros : list Z
}.

(** How a statement ends: normally, by an exception, or by [st.stop()]. *)
Inductive outcome (A : Type) :=
  | Returned (a : A)
  | Raised (e : exn)
  | Stopped.
Arguments Returned {A} a.
Arguments Raised {A} e.
Arguments Stopped {A}.

Definition script (A : Type) : Type := world → outcome A * world.

Global Instance script_ret : MRet script := λ A a w, (Returned a, w).
Global Instance script_bind : MBind script := λ A B f m w,
  match m w with
  | (Returned a, w') => f a w'
  | (Raised e, w') => (Raised e, w')
  | (Stopped, w') => (Stopped, w')
  end.

(** Evaluating an expression inside a statement. *)
Definition eval {A} (r : res A) : script A := λ w,
  match r with Ok a => (Returned a, w) | Err e => (Raised e, w) end.

(** [try: body except Exception as e: handler(e)]; [st.stop()] is not an
    [Exception] and passes through. *)
Definition try_except {A} (body : script A) (handler : exn → script A) : script A :=
  λ w, match body w with
       | (Raised e, w') => handler e w'
       | r => r
       end.

(** The world with one more object, and with one more element drawn. *)
Definition allocated (w : world) (df : DataFrame) : world :=
  {| objects := objects w ++ [df]; files := files w; page := page w;
     decimal_zeros := decimal_zeros w |}.
Definition drawn (w : world) (e : element) : world :=
  {| objects := objects w; files := files w; page := page w ++ [e];
     decimal_zeros := decimal_zeros w |}.

(** A new DataFrame object; its reference is fresh. *)
Definition new_object (df : DataFrame) : script loc := λ w,
  (Returned (length (objects w)), allocated w df).

(** The object a variable refers to. A reference handed out by
    [new_object] always has its object; the other case is there to make the
    function total. *)
Definition deref (l : loc) : script DataFrame := λ w,
  match objects w !! l with
  | Some df => (Returned df, w)
  | None => (Raised (KeyError "dangling reference"), w)
  end.

(** Replacing an object in place. *)
Definition updated (w : world) (l : loc) (df : DataFrame) : world :=
  {| objects := <[l:=df]> (objects w); files := files w; page := page w;
     decimal_zeros := decimal_zeros w |}.
Definition update (l : loc) (df : DataFrame) : script unit := λ w,
  (Returned (), updated w l df).

(** [df[c] = s] as a statement: the object [df] refers to is changed. *)
Definition assign_column (df : loc) (c : string) (s : Series) : script unit :=
  d ← deref df; d' ← eval (setitem d c s); update df d'.

Definition draw (e : element) : script unit := λ w, (Returned (), drawn w e).

Definition st_error (body : string) : script unit := draw (error_box body).
Definition st_warning (body : string) : script unit := draw (warning_box body).
Definition st_subheader (body : string) : script unit := draw (subheader body).
Definition st_title (body : string) : script unit := draw (title body).
Definition st_dataframe (data : DataFrame) : script unit := draw (dataframe data).
Definition st_stop {A} : script A := λ w, (Stopped, w).

(** [pd.read_csv(path)]: a new DataFrame object, or an exception. *)
Definition read_csv (path : string) : script loc := λ w,
  match files w !! path with
  | None => (Raised (FileNotFoundError
               ("[Errno 2] No such file or directory: '" +:+ path +:+ "'")), w)
  | Some (Unreadable msg) => (Raised (ParserError msg), w)
  | Some (Table t) => new_object (frame_of t) w
  end.

(** [pd.to_datetime(s, format='%d-%m-%Y', errors='coerce')] as the
    interpreter of this world runs it. *)
Definition pd_to_datetime (s : Series) : script Series := λ w,
  (Returned (to_datetime (decimal_zeros w) s), w).

(** ** The loader (lines 17-34)

    One call of [load_data]; [st.cache_data] only saves later calls. *)

Definition file_path : string := "songs_2000_2020_50k.csv".

Definition load_data : script loc :=
  try_except
    (df ← read_csv file_path;
     d ← deref df;
     dates ← eval (getitem d "Release Date");
     datetimes ← pd_to_datetime dates;
     assign_column df "release_datetime" datetimes;;
     d ← deref df;
     datetimes ← eval (getitem d "release_datetime");
     years ← eval (dt_year datetimes);
     assign_column df "release_year" years;;
     d ← deref df;
     kept ← eval (dropna d "release_year");
     df ← new_object kept;
     d ← deref df;
     years ← eval (getitem d "release_year");
     years ← eval (astype_int years);
     assign_column df "release_year" years;;
     mret df)
    (λ e,
       if is_FileNotFoundError e
       then st_error ("Error: The data file '" +:+ file_path +:+ "' was not found.");;
            st_stop
       else st_error ("An error occurred while loading the data: " +:+ str_exn e);;
            st_stop).

(** ** The song explorer from its filter logic on (lines 222-240)

    The three widgets of the sidebar hand the script the user's selection;
    their values are the arguments here. *)

(** The labels of a list once each, in the order of their first
    occurrence ([Index.unique]). *)
Fixpoint unique (seen l : list string) : list string :=
  match l with
  | [] => []
  | c :: l => if decide (c ∈ seen) then unique seen l else c :: unique (c :: seen) l
  end.

(** [repr] of a list of labels that are plain words, as the labels the
    script asks for are: [['Title', 'Artist']]. *)
Definition repr_labels (cs : list string) : string :=
  "[" +:+ String.concat ", " ((λ c, "'" +:+ c +:+ "'") <$> cs) +:+ "]".

(** [df[cols]] for a list of column labels. When some of the labels are not
    columns the KeyError names all of those; when none is a column, it
    names the whole key, an Index, shown here on one line. *)
Definition getitem_columns (df : DataFrame) (cols : list string) : res DataFrame :=
  let missing := filter (λ c, c ∉ columns df) cols in
  if bool_decide (missing = [])
  then Ok {| columns := cols;
             rows := (λ r : row, filter (λ kv, kv.1 ∈ cols) r) <$> rows df |}
  else if bool_decide (missing = cols)
  then Err (KeyError ("None of [Index(" +:+ repr_labels cols
                        +:+ ", dtype='str')] are in the [columns]"))
  else Err (KeyError (repr_labels (unique [] missing) +:+ " not in index")).

(** Lines 223-233: the guard on the selection, then the filter, bound to
    a new object. *)
Definition filter_logic (df : loc) (selected_genres : list string)
    (selected_year_range selected_pop_range : Z * Z) : script loc :=
  (if bool_decide (selected_genres = [])
   then st_warning "Please select at least one genre.";; st_stop
   else mret ());;
  d ← deref df;
  view ← eval (filtered_df d selected_genres selected_year_range selected_pop_range);
  new_object view.

Definition display_cols : list string :=
  ["Title"; "Artist"; "Genre"; "release_year"; "Popularity"; "Duration"].

Definition song_explorer (df : loc) (selected_genres : list string)
    (selected_year_range selected_pop_range : Z * Z) : script unit :=
  filtered ← filter_logic df selected_genres selected_year_range selected_pop_range;
  view ← deref filtered;
  st_subheader ("Found " +:+ pretty (len view) +:+ " songs matching your criteria:");;
  shown ← eval (getitem_columns view display_cols);
  st_dataframe shown;;
  st_title " Enjoy Exploring the Music Data!🎵, Its fun right?! Thanks for Wasting your valuable time in here".

(** The loader followed by the explorer page from its filter logic on, for
    the selection that the widgets hand over. It is there to say what
    happens to the page when the loader stops. The statements in between
    (the navigation of lines 40 to 66 and the widgets of lines 190 to 220)
    run only once the loader has returned; what they draw, and the
    exceptions that lines 198 and 206 raise on a dataset without a Genre
    column or without records, are not part of this definition. *)
Definition explorer_run (selected_genres : list string)
    (selected_year_range selected_pop_range : Z * Z) : script unit :=
  df ← load_data;
  song_explorer df selected_genres selected_year_range selected_pop_range.

(** ** Arithmetic in float64

    A finite float64 is the rational it stands for, and an operation is the
    exact operation followed by rounding to the nearest float64, ties to the
    even significand, as IEEE 754 has it. The significand has 53 bits;
    below [2^-1022] the numbers are subnormal and evenly spaced. The
    exponent is not bounded above here: the infinities that a result beyond
    [2^1024] overflows to are not values of the model. *)

Module Float64.

Local Open Scope Z_scope.

(** [q * 2^e] *)
Definition scale2 (e : Z) (q : Q) : Q :=
  match e with
  | Z0 => q
  | Zpos p => (Qnum q * Z.pow_pos 2 p) # Qden q
  | Zneg p => Qnum q # (Qden q * Pos.pow 2 p)
  end.

(** The integer nearest to [q], the even one of two that are as near. *)
Definition rne (q : Q) : Z :=
  let f := Qnum q / Zpos (Qden q) in
  match 2 * (Qnum q mod Zpos (Qden q)) ?= Zpos (Qden q) with
  | Lt => f
  | Gt => f + 1
  | Eq => if Z.even f then f else f + 1
  end.

(** The exponent of the leading bit of [q], which is not zero:
    [2^e <= |q| < 2^(e+1)]. *)
Definition ilog2 (q : Q) : Z :=
  let e := Z.log2 (Z.abs (Qnum q)) - Z.log2 (Zpos (Qden q)) in
  if Qle_bool 1 (scale2 (- e) (Z.abs (Qnum q) # Qden q)) then e else e - 1.

(** The multiple of [2^(e-52)] nearest to [q], for the exponent [e] of [q]
    or of the least normal number. *)
Definition nearest (q : Q) : Q :=
  if Qnum q =? 0 then 0%Q
  else let e := Z.max (ilog2 q) (-1022) in
       scale2 (e - 52) (inject_Z (rne (scale2 (52 - e) q))).

(** Rounding; the result is in lowest terms. *)
Definition round (q : Q) : Q := Qred (nearest (Qred q)).

(** The conversion of an integer, and the operations. *)
Definition of_int (n : Z) : Q := round (inject_Z n).
Definition add (a b : Q) : Q := round (a + b).
Definition sub (a b : Q) : Q := round (a - b).
Definition div (a b : Q) : Q := round (a / b).

End Float64.

(** ** Aggregations *)

(** The number in a cell, for the arithmetic of [mean], which is done in
    float64: an integer is converted, a missing value is skipped, a string
    or a Timestamp raises. *)
Definition number (v : value) : res (option Q) :=
  match v with
  | VInt n => Ok (Some (Float64.of_int n))
  | VFloat q => Ok (Some q)
  | VNaN => Ok None
  | VStr _ | VTime _ => Err (TypeError "agg function failed")
  end.

(** The order in which group keys are sorted. Keys of one column are of one
    kind; numbers compare as numbers, strings by code point, dates by the
    calendar. Across kinds the model orders by kind. *)
Definition kind (v : value) : Z :=
  match v with
  | VInt _ | VFloat _ => 0
  | VStr _ => 1
  | VTime _ => 2
  | VNaN => 3
  end.

Definition value_leb (a b : value) : bool :=
  match a, b with
  | VStr s, VStr t => String.leb s t
  | VTime d, VTime e => Strptime.date_leb d e
  | VInt m, VInt n => (m <=? n)%Z
  | VInt m, VFloat q => Qle_bool (inject_Z m) q
  | VFloat p, VInt n => Qle_bool p (inject_Z n)
  | VFloat p, VFloat q => Qle_bool p q
  | _, _ => (kind a <=? kind b)%Z
  end.

(** [df.groupby(c)]: one group per distinct value of column [c] that is
    not missing, the groups sorted by key, each with its rows in order. *)
Definition group_keys (s : Series) : list value :=
  merge_sort (λ a b, Is_true (value_leb a b)) (remove_dups (filter (λ v, v ≠ VNaN) s)).

Definition groupby (df : DataFrame) (c : string) : res (list (value * list row)) :=
  s ← getitem df c;
  Ok ((λ k, (k, filter (λ r, cell c r = k) (rows df))) <$> group_keys s).

(** [.size()] *)
Definition size_of_groups (g : list (value * list row)) : list (value * value) :=
  (λ kr, (kr.1, VInt (Z.of_nat (length kr.2)))) <$> g.

(** [.mean()] of the cells of a group, as pandas' [group_mean] computes
    it: the numbers are added up in float64, in the order of the rows, with
    Kahan's compensation of the rounding error, and the sum is divided by
    the count; NaN when the group has no number. *)
Definition kahan_step (acc : Q * Q) (val : Q) : Q * Q :=
  let y := Float64.sub val acc.2 in
  let t := Float64.add acc.1 y in
  (t, Float64.sub (Float64.sub t acc.1) y).

Definition kahan_sum (vals : list Q) : Q := (foldl kahan_step (0%Q, 0%Q) vals).1.

Definition mean_of (vals : list Q) : value :=
  match vals with
  | [] => VNaN
  | _ => VFloat (Float64.div (kahan_sum vals)
                             (Float64.of_int (Z.of_nat (length vals))))
  end.

Definition mean (s : Series) : res value :=
  xs ← traverse number s;
  Ok (mean_of (omap id xs)).

(** [[c].mean()] on the groups. *)
Definition mean_of_groups (c : string) (df : DataFrame)
    (g : list (value * list row)) : res (list (value * value)) :=
  (if decide (c ∈ columns df) then Ok () else Err (KeyError ("Column not found: " +:+ c)));;
  traverse (λ kr, m ← mean (cell c <$> kr.2); Ok (kr.1, m)) g.

(** [.reset_index(name=v)]: the keys become column [k], the values column [v]. *)
Definition reset_index (k v : string) (agg : list (value * value)) : DataFrame :=
  {| columns := [k; v];
     rows := (λ kv, {[ k := kv.1; v := kv.2 ]}) <$> agg |}.

(** Line 94: [df.groupby('release_year').size().reset_index(name='song_count')] *)
Definition data_songs_per_year (df : DataFrame) : res DataFrame :=
  g ← groupby df "release_year";
  Ok (reset_index "release_year" "song_count" (size_of_groups g)).

(** Line 125: [df.groupby('Genre')['Popularity'].mean().reset_index()] *)
Definition avg_popularity_genre (df : DataFrame) : res DataFrame :=
  g ← groupby df "Genre";
  m ← mean_of_groups "Popularity" df g;
  Ok (reset_index "Genre" "Popularity" m).

(** ** Sampling *)

(** [n] rows drawn one after the other from the rows not drawn yet; the
    generator's choices are the natural numbers [rng]. *)
Fixpoint draw_rows (n : nat) (pool : list row) (rng : list nat) : list row :=
  match n with
  | O => []
  | S n =>
      let i := (hd 0%nat rng `mod` length pool)%nat in
      match pool !! i with
      | Some r => r :: draw_rows n (delete i pool) (tl rng)
      | None => []
      end
  end.

(** [df.sample(n)]: [n] rows without replacement. *)
Definition sample (df : DataFrame) (n : nat) (rng : list nat) : res DataFrame :=
  if decide (len df < n)%nat
  then Err (ValueError "Cannot take a larger sample than population when 'replace=False'")
  else Ok {| columns := columns df; rows := draw_rows n (rows df) rng |}.

(** Line 168: [df.sample(5000)] *)
Definition df_sample (df : DataFrame) (rng : list nat) : res DataFrame :=
  sample df 5000 rng.

(** ** The data model of the specification *)

(** A Song record, as far as the filter and the aggregations read it: a
    genre label, an integer release year and an integer popularity. *)
Definition song (r : row) : Prop :=
  ∃ g y p, r !! "Genre" = Some (VStr g) ∧ r !! "release_year" = Some (VInt y)
           ∧ r !! "Popularity" = Some (VInt p).

(** The loader's invariant: every record has an integer release year. *)
Definition years_known (df : DataFrame) : Prop :=
  "release_year" ∈ columns df
  ∧ Forall (λ r : row, ∃ y, r !! "release_year" = Some (VInt y)) (rows df).

(** A Dataset: a table of Song records. *)
Definition Dataset (df : DataFrame) : Prop :=
  "Genre" ∈ columns df ∧ "release_year" ∈ columns df ∧ "Popularity" ∈ columns df
  ∧ Forall song (rows df).

(** The filter's predicate in the words of the specification: the row has a
    genre that is selected, a release year in the year range and a
    popularity in the popularity range. *)
Definition retained (genres : list string) (yearRange popularityRange : Z * Z)
    (r : row) : Prop :=
  match r !! "Genre", r !! "release_year", r !! "Popularity" with
  | Some (VStr g), Some (VInt y), Some (VInt p) =>
      g ∈ genres
      ∧ (yearRange.1 ≤ y ≤ yearRange.2)%Z
      ∧ (popularityRange.1 ≤ p ≤ popularityRange.2)%Z
  | _, _, _ => False
  end.

Global Instance retained_dec genres yearRange popularityRange r :
  Decision (retained genres yearRange popularityRange r).
Proof. unfold retained. repeat case_match; apply _. Defined.

(** The same test on one row as the code computes it, cell by cell. *)
Definition keep (genres : list string) (yearRange popularityRange : Z * Z)
    (r : row) : res bool :=
  let m1 := match cell "Genre" r with
            | VStr g => bool_decide (g ∈ genres)
            | _ => false
            end in
  m2 ← ge_scalar (yearRange.1) (cell "release_year" r);
  m3 ← le_scalar (yearRange.2) (cell "release_year" r);
  m4 ← ge_scalar (popularityRange.1) (cell "Popularity" r);
  m5 ← le_scalar (popularityRange.2) (cell "Popularity" r);
  Ok (m1 && m2 && m3 && m4 && m5).

(** The five masks of [filtered_df] and their conjunction, over the rows. *)
Definition mask_of (genres : list string) (yearRange popularityRange : Z * Z)
    (rs : list row) : res (list bool) :=
  m2 ← series_ge (cell "release_year" <$> rs) (yearRange.1);
  m3 ← series_le (cell "release_year" <$> rs) (yearRange.2);
  m4 ← series_ge (cell "Popularity" <$> rs) (popularityRange.1);
  m5 ← series_le (cell "Popularity" <$> rs) (popularityRange.2);
  Ok (isin (cell "Genre" <$> rs) genres &&& m2 &&& m3 &&& m4 &&& m5).

(** The loader in the words of the specification: a record whose Release
    Date parses under the day-month-year format gets its datetime and its
    year; a record whose date does not parse is left out. *)
Definition release_date (zeros : list Z) (r : row) : option date :=
  match r !! "Release Date" with
  | Some (VStr s) => Strptime.strptime zeros s
  | _ => None
  end.

Definition with_year (zeros : list Z) (r : row) : option row :=
  d ← release_date zeros r;
  Some (<["release_year" := VInt (year d)]> (<["release_datetime" := VTime d]> r)).

(** The same, with the cell conversion of the code. *)
Definition loaded_row (zeros : list Z) (r : row) : option row :=
  match to_datetime_cell zeros (cell "Release Date" r) with
  | VTime d => Some (<["release_year" := VInt (year d)]>
                       (<["release_datetime" := VTime d]> r))
  | _ => None
  end.

(** The columns after the two assignments of the loader. *)
Definition derived_columns (cs : list string) : list string :=
  let cs := if decide ("release_datetime" ∈ cs) then cs else cs ++ ["release_datetime"] in
  if decide ("release_year" ∈ cs) then cs else cs ++ ["release_year"].

Definition loaded (zeros : list Z) (raw : DataFrame) : DataFrame :=
  {| columns := derived_columns (columns raw);
     rows := omap (loaded_row zeros) (rows raw) |}.

(** The table as read, once the loader has added its two columns in place:
    every row is still there, the unparsed ones with NaT and NaN, and when
    there are unparsed ones the years of the others are floats. *)
Definition unparsed (zeros : list Z) (raw : DataFrame) : bool :=
  existsb (λ r, isna (to_datetime_cell zeros (cell "Release Date" r))) (rows raw).

Definition stamp (zeros : list Z) (floating : bool) (r : row) : row :=
  let t := to_datetime_cell zeros (cell "Release Date" r) in
  <["release_year" := year_cell floating t]> (<["release_datetime" := t]> r).

Definition prepared (zeros : list Z) (raw : DataFrame) : DataFrame :=
  {| columns := derived_columns (columns raw);
     rows := stamp zeros (unparsed zeros raw) <$> rows raw |}.

(** The rows that [dropna] keeps of it, before their years are made
    integers. *)
Definition kept_row (zeros : list Z) (floating : bool) (r : row) : option row :=
  match to_datetime_cell zeros (cell "Release Date" r) with
  | VTime d => Some (stamp zeros floating r)
  | _ => None
  end.

Definition kept (zeros : list Z) (raw : DataFrame) : DataFrame :=
  {| columns := derived_columns (columns raw);
     rows := omap (kept_row zeros (unparsed zeros raw)) (rows raw) |}.

(** The columns the specification requires of the input file. *)
Definition required_columns : list string :=
  ["Title"; "Artist"; "Genre"; "Release Date"; "Popularity"; "Duration"].

(** The two failures of the loader, as the user sees them: the run is
    stopped and the message is the last thing on the page. *)
Definition fails_NotFound (w : world) : Prop :=
  ∃ w', load_data w = (Stopped, w')
        ∧ page w' = page w ++ [error_box
            ("Error: The data file '" +:+ file_path +:+ "' was not found.")].

Definition fails_LoadError (w : world) : Prop :=
  ∃ w' msg, load_data w = (Stopped, w')
        ∧ page w' = page w ++ [error_box
            ("An error occurred while loading the data: " +:+ msg)].

(** The loader's error contract in the words of the specification: a
    missing path is [NotFound]; an unreadable file, or a file without all
    the required columns, is [LoadError]. *)
Definition load_contract (w : world) : Prop :=
  match files w !! file_path with
  | None => fails_NotFound w
  | Some (Unreadable _) => fails_LoadError w
  | Some (Table t) => ¬ required_columns ⊆ header t → fails_LoadError w
  end.

(** A file with a title and a date in each record, and no other column. *)
Definition titles_and_dates : table :=
  {| header := ["Title"; "Release Date"];
     records := [ {[ "Title" := FStr "A"; "Release Date" := FStr "01-06-2010" ]} ] |}.

(** The sum of an integer column, and the number of records of a year. *)
Definition column_total (c : string) (df : DataFrame) : Z :=
  foldr (λ r acc, match cell c r with VInt n => n + acc | _ => acc end)%Z 0%Z (rows df).

Definition songs_in_year (df : DataFrame) (y : Z) : nat :=
  length (filter (λ r, cell "release_year" r = VInt y) (rows df)).

(** The popularities observed for a genre, and the least and the greatest
    of a list of integers. *)
Definition popularities (rs : list row) : list Z :=
  omap (λ r, match cell "Popularity" r with VInt p => Some p | _ => None end) rs.

Definition popularity_of (df : DataFrame) (g : string) : list Z :=
  popularities (filter (λ r, cell "Genre" r = VStr g) (rows df)).

Definition minimum (l : list Z) : Z := foldr Z.min (hd 0%Z l) l.
Definition maximum (l : list Z) : Z := foldr Z.max (hd 0%Z l) l.

(** The mean of a column of integers, as [mean] computes it. *)
Definition mean_of_ints (zs : list Z) : value := mean_of (Float64.of_int <$> zs).

(** The sum of the absolute values of a list of integers. While it stays
    within [2^53], every sum of some of them is a float64. *)
Definition magnitude (zs : list Z) : Z := foldr (λ z a, Z.abs z + a)%Z 0%Z zs.

(** The bound of the specification on the mean popularity of a genre:
    every value that the summary gives for the genre lies between the least
    and the greatest popularity of its records. *)
Definition mean_within_bounds (df : DataFrame) (g : string) : Prop :=
  ∀ (out : DataFrame) (r : row) (m : Q),
    avg_popularity_genre df = Ok out → r ∈ rows out →
    cell "Genre" r = VStr g → cell "Popularity" r = VFloat m →
    (inject_Z (minimum (popularity_of df g)) <= m
     <= inject_Z (maximum (popularity_of df g)))%Q.

(** Two records of one genre with a popularity just above [2^53]. *)
Definition two_loud_songs : DataFrame :=
  {| columns := ["Genre"; "release_year"; "Popularity"];
     rows := [ {[ "Genre" := VStr "Pop"; "release_year" := VInt 2010;
                  "Popularity" := VInt 9007199254740993 ]};
               {[ "Genre" := VStr "Pop"; "release_year" := VInt 2011;
                  "Popularity" := VInt 9007199254740993 ]} ] |}.

(** The invariant of the specification on the loaded dataset: every record
    has, as release year, the year of its parsed datetime, an integer of
    four digits. *)
Definition four_digit_years (ds : DataFrame) : Prop :=
  Forall (λ r : row, ∃ d, r !! "release_datetime" = Some (VTime d)
                          ∧ r !! "release_year" = Some (VInt (year d))
                          ∧ (1000 ≤ year d ≤ 9999)%Z) (rows ds).

(** A file with a release date in the year 999. *)
Definition early_music : table :=
  {| header := ["Title"; "Release Date"];
     records := [ {[ "Title" := FStr "Organum"; "Release Date" := FStr "01-06-0999" ]} ] |}.

(** What the loader makes of it. *)
Definition early_music_loaded : DataFrame :=
  {| columns := ["Title"; "Release Date"; "release_datetime"; "release_year"];
     rows := [ {[ "Title" := VStr "Organum"; "Release Date" := VStr "01-06-0999";
                  "release_datetime" := VTime (Date 999 6 1);
                  "release_year" := VInt 999 ]} ] |}.

(** A file with dates that parse, among them one whose year is written in
    Arabic-Indic digits, and with dates that do not: one in another format,
    one that is not on the calendar, and a record with no date. *)
Definition mixed_dates : table :=
  {| header := ["Title"; "Release Date"];
     records := [ {[ "Title" := FStr "A"; "Release Date" := FStr "01-06-2010" ]};
                  {[ "Title" := FStr "B"; "Release Date" := FStr "2010-06-01" ]};
                  {[ "Title" := FStr "C"; "Release Date" := FStr "15-07-٢٠١٥" ]};
                  {[ "Title" := FStr "D"; "Release Date" := FStr "31-02-2010" ]};
                  {[ "Title" := FStr "E" ]} ] |}.

(** ** The example of the specification *)

Definition example_file : table :=
  {| header := ["Title"; "Genre"; "Release Date"; "Popularity"; "Duration"];
     records := [ {[ "Title" := FStr "A"; "Genre" := FStr "Pop";
                     "Release Date" := FStr "01-06-2010";
                     "Popularity" := FInt 80; "Duration" := FInt 200 ]};
                  {[ "Title" := FStr "B"; "Genre" := FStr "Rock";
                     "Release Date" := FStr "15-07-2015";
                     "Popularity" := FInt 40; "Duration" := FInt 180 ]} ] |}.

(** The same rows once loaded. *)
Definition example_dataset : DataFrame :=
  {| columns := ["Title"; "Genre"; "Release Date"; "Popularity"; "Duration";
                 "release_datetime"; "release_year"];
     rows := [ {[ "Title" := VStr "A"; "Genre" := VStr "Pop";
                  "Release Date" := VStr "01-06-2010";
                  "Popularity" := VInt 80; "Duration" := VInt 200;
                  "release_datetime" := VTime (Date 2010 6 1);
                  "release_year" := VInt 2010 ]};
               {[ "Title" := VStr "B"; "Genre" := VStr "Rock";
                  "Release Date" := VStr "15-07-2015";
                  "Popularity" := VInt 40; "Duration" := VInt 180;
                  "release_datetime" := VTime (Date 2015 7 15);
                  "release_year" := VInt 2015 ]} ] |}.

(** The decimal digits of Unicode 15, the database of Python 3.12 and
    3.13: the zero of each run of ten above U+0080. *)
Definition unicode_15 : list Z :=
  [ 0x0660; 0x06F0; 0x07C0; 0x0966; 0x09E6; 0x0A66; 0x0AE6; 0x0B66; 0x0BE6;
    0x0C66; 0x0CE6; 0x0D66; 0x0DE6; 0x0E50; 0x0ED0; 0x0F20; 0x1040; 0x1090;
    0x17E0; 0x1810; 0x1946; 0x19D0; 0x1A80; 0x1A90; 0x1B50; 0x1BB0; 0x1C40;
    0x1C50; 0xA620; 0xA8D0; 0xA900; 0xA9D0; 0xA9F0; 0xAA50; 0xABF0; 0xFF10;
    0x104A0; 0x10D30; 0x11066; 0x110F0; 0x11136; 0x111D0; 0x112F0; 0x11450;
    0x114D0; 0x11650; 0x116C0; 0x11730; 0x118E0; 0x11950; 0x11C50; 0x11D50;
    0x11DA0; 0x11F50; 0x16A60; 0x16AC0; 0x16B50; 0x1D7CE; 0x1D7D8; 0x1D7E2;
    0x1D7EC; 0x1D7F6; 0x1E140; 0x1E2F0; 0x1E4F0; 0x1E950; 0x1FBF0 ]%Z.

(** A world whose disk holds [f] at the path the loader reads. *)
Definition disk (f : file) : world :=
  {| objects := []; files := {[ file_path := f ]}; page := [];
     decimal_zeros := unicode_15 |}.

(** A world with one object and nothing else. *)
Definition holding (df : DataFrame) : world :=
  {| objects := [df]; files := ∅; page := []; decimal_zeros := unicode_15 |}.

(** ** More of the script: metrics, trends and the bounds of the year slider *)

(** [s.nunique()]: the number of distinct values that are not missing. *)
Definition nunique (s : Series) : nat :=
  length (remove_dups (filter (λ v, v ≠ VNaN) s)).

(** Line 87: [df['Genre'].nunique()] *)
Definition total_genres (df : DataFrame) : res nat :=
  s ← getitem df "Genre"; Ok (nunique s).

(** Line 88: [df['Artist'].nunique()] *)
Definition total_artists (df : DataFrame) : res nat :=
  s ← getitem df "Artist"; Ok (nunique s).

(** [df.groupby([c1, c2])]: one group per distinct pair of values neither of
    which is missing, the groups sorted by the first key and then the
    second. *)
Definition pair_leb (a b : value * value) : bool :=
  (value_leb a.1 b.1 && negb (value_leb b.1 a.1))
  || (value_leb a.1 b.1 && value_leb b.1 a.1 && value_leb a.2 b.2).

Definition group_keys2 (s1 s2 : Series) : list (value * value) :=
  merge_sort (λ a b, Is_true (pair_leb a b))
    (remove_dups (filter (λ k, k.1 ≠ VNaN ∧ k.2 ≠ VNaN) (zip s1 s2))).

Definition groupby2 (df : DataFrame) (c1 c2 : string)
    : res (list ((value * value) * list row)) :=
  s1 ← getitem df c1;
  s2 ← getitem df c2;
  Ok ((λ k, (k, filter (λ r, cell c1 r = k.1 ∧ cell c2 r = k.2) (rows df)))
        <$> group_keys2 s1 s2).

(** Line 135:
    [df.groupby(['release_year', 'Genre'])['Popularity'].mean().reset_index()] *)
Definition data_pop_trends (df : DataFrame) : res DataFrame :=
  g ← groupby2 df "release_year" "Genre";
  (if decide ("Popularity" ∈ columns df) then Ok ()
   else Err (KeyError "Column not found: Popularity"));;
  m ← traverse (λ kr, m ← mean (cell "Popularity" <$> kr.2); Ok (kr.1, m)) g;
  Ok {| columns := ["release_year"; "Genre"; "Popularity"];
        rows := (λ km : value * value * value,
                   {[ "release_year" := km.1.1; "Genre" := km.1.2;
                      "Popularity" := km.2 ]}) <$> m |}.

(** [s.min()] and [s.max()]. On numbers and on Timestamps the missing
    values are skipped, and a column with nothing left gives NaN; a column
    of strings is compared as strings, and raises if it has anything else
    in it, a missing value included. *)
Definition is_number (v : value) : bool :=
  match v with VInt _ | VFloat _ => true | _ => false end.
Definition is_time (v : value) : bool :=
  match v with VTime _ => true | _ => false end.
Definition is_str (v : value) : bool :=
  match v with VStr _ => true | _ => false end.

Definition least (a b : value) : value := if value_leb a b then a else b.
Definition greatest (a b : value) : value := if value_leb b a then a else b.

Definition reduce (pick : value → value → value) (s : Series) : res value :=
  let present := filter (λ v, v ≠ VNaN) s in
  if forallb is_number present || forallb is_time present || forallb is_str s
  then Ok (match present with
           | [] => VNaN
           | x :: xs => foldl pick x xs
           end)
  else Err cmp_error.

Definition series_min (s : Series) : res value := reduce least s.
Definition series_max (s : Series) : res value := reduce greatest s.

(** Python's [int(x)] on the result. *)
Definition py_int (v : value) : res Z :=
  match v with
  | VInt n => Ok n
  | VFloat q => Ok (Z.quot (Qnum q) (Zpos (Qden q)))
  | VNaN => Err (ValueError "cannot convert float NaN to integer")
  | VStr t => match int_of_string t with
              | Some n => Ok n
              | None => Err (ValueError "invalid literal for int()")
              end
  | VTime _ => Err (TypeError "int() argument must be a string or a real number")
  end.

(** Line 206:
    [min_year, max_year = int(df['release_year'].min()), int(df['release_year'].max())] *)
Definition year_bounds (df : DataFrame) : res (Z * Z) :=
  s ← getitem df "release_year";
  lo ← series_min s;
  min_year ← py_int lo;
  s ← getitem df "release_year";
  hi ← series_max s;
  max_year ← py_int hi;
  Ok (min_year, max_year).

(** The popularity test alone, in the words of the filter. *)
Definition popular (popularityRange : Z * Z) (r : row) : Prop :=
  match r !! "Popularity" with
  | Some (VInt p) => (popularityRange.1 ≤ p ≤ popularityRange.2)%Z
  | _ => False
  end.

Global Instance popular_dec popularityRange r : Decision (popular popularityRange r).
Proof. unfold popular. repeat case_match; apply _. Defined.

(** A cell that holds a number or nothing. *)
Definition number_or_missing (v : value) : Prop :=
  match v with VInt _ | VFloat _ | VNaN => True | _ => False end.

(** The example dataset with an artist for every record. *)
Definition example_songs : DataFrame :=
  {| columns := "Artist" :: columns example_dataset;
     rows := (λ r : row, <["Artist" := VStr "Anon"]> r) <$> rows example_dataset |}.

(** A file whose dates are in another format, not on the calendar, or
    absent. *)
Definition unparsed_dates : table :=
  {| header := ["Title"; "Release Date"];
     records := [ {[ "Title" := FStr "A"; "Release Date" := FStr "2010-06-01" ]};
                  {[ "Title" := FStr "B"; "Release Date" := FStr "31-02-2010" ]};
                  {[ "Title" := FStr "C" ]} ] |}.

(** The popularities observed for a genre in a year. *)
Definition popularity_in (df : DataFrame) (y : Z) (g : string) : list Z :=
  popularities (filter (λ r, cell "release_year" r = VInt y ∧ cell "Genre" r = VStr g)
                  (rows df)).

(** A date written the way the input file writes it: day, month and year
    in decimal, padded with zeros to two, two and four digits, with dashes
    between them. *)
Definition digit_char (k : Z) : ascii := ascii_of_N (Z.to_N (48 + k)).

Definition two_digits (n : Z) : string :=
  String (digit_char (n / 10)) (String (digit_char (n `mod` 10)) "").

Definition four_digits (n : Z) : string :=
  two_digits (n / 100) +:+ two_digits (n `mod` 100).

Definition format_date (d : date) : string :=
  two_digits (day d) +:+ "-" +:+ two_digits (month d) +:+ "-" +:+ four_digits (year d).

(** The code points of [two_digits n]. *)
Definition two_points (n : Z) : list Z := [48 + n / 10; 48 + n `mod` 10]%Z.

(** [strptime] in stages: what is left to match once the day, and once the
    day and the month, have been matched. *)
Definition after_month (zeros : list Z) (d m s : list Z) : list (date * list Z) :=
  '(_, s) ← Strptime.chr "-" s;
  '(y, s) ← Strptime.re_Y zeros s;
  [(Date (Strptime.int zeros y) (Strptime.int zeros m) (Strptime.int zeros d), s)].

Definition after_day (zeros : list Z) (d s : list Z) : list (date * list Z) :=
  '(_, s) ← Strptime.chr "-" s;
  '(m, s) ← Strptime.re_m s;
  after_month zeros d m s.

Example strptime_a : Strptime.strptime unicode_15 "01-06-2010" = Some (Date 2010 6 1).
Proof. reflexivity. Qed.
Example strptime_b : Strptime.strptime unicode_15 "1-6-2010" = Some (Date 2010 6 1).
Proof. reflexivity. Qed.
Example strptime_c : Strptime.strptime unicode_15 "31-02-2010" = None.
Proof. reflexivity. Qed.
Example strptime_d : Strptime.strptime unicode_15 "29-02-2012" = Some (Date 2012 2 29).
Proof. reflexivity. Qed.
Example strptime_e : Strptime.strptime unicode_15 "2010-06-01" = None.
Proof. reflexivity. Qed.
Example strptime_f : Strptime.strptime unicode_15 "01-06-0999" = Some (Date 999 6 1).
Proof. reflexivity. Qed.
Example strptime_g : Strptime.strptime unicode_15 "01-06-20100" = None.
Proof. reflexivity. Qed.
Example strptime_h : Strptime.strptime unicode_15 "12-04-2262" = Some (Date 2262 4 12).
Proof. reflexivity. Qed.
Example strptime_i : Strptime.strptime unicode_15 "311-12-2020" = None.
Proof. reflexivity. Qed.
Example strptime_j : Strptime.strptime unicode_15 "01-06-0000" = None.
Proof. reflexivity. Qed.
Example strptime_k : Strptime.strptime unicode_15 "15-07-٢٠١٥" = Some (Date 2015 7 15).
Proof. reflexivity. Qed.
Example strptime_l : Strptime.strptime unicode_15 "٠١-07-2015" = None.
Proof. reflexivity. Qed.
Example strptime_m : Strptime.strptime [] "15-07-٢٠١٥" = None.
Proof. reflexivity. Qed.

Example code_points_example : code_points "é🎵" = [233; 127925]%Z.
Proof. reflexivity. Qed.

Example round_example :
  Float64.round (1 # 10) = (3602879701896397 # 36028797018963968)%Q
  ∧ Float64.of_int 9007199254740993 = 9007199254740992%Q.
Proof. split; vm_compute; reflexivity. Qed.

Example load_example :
  (load_data (disk (Table example_file))).1 = Returned 1%nat
  ∧ objects (load_data (disk (Table example_file))).2 !! 1%nat = Some example_dataset.
Proof. vm_compute. split; reflexivity. Qed.

Example songs_per_year_example :
  data_songs_per_year example_dataset =
    Ok {| columns := ["release_year"; "song_count"];
          rows := [ {[ "release_year" := VInt 2010; "song_count" := VInt 1 ]};
                    {[ "release_year" := VInt 2015; "song_count" := VInt 1 ]} ] |}.
Proof. vm_compute. reflexivity. Qed.

Example avg_popularity_example :
  avg_popularity_genre example_dataset =
    Ok {| columns := ["Genre"; "Popularity"];
          rows := [ {[ "Genre" := VStr "Pop"; "Popularity" := VFloat 80 ]};
                    {[ "Genre" := VStr "Rock"; "Popularity" := VFloat 40 ]} ] |}.
Proof. vm_compute. reflexivity. Qed.

Example sample_example :
  sample example_dataset 1 [3%nat] =
    Ok {| columns := columns example_dataset; rows := drop 1 (rows example_dataset) |}.
Proof. vm_compute. reflexivity. Qed.

(** * Properties *)

(** ** The error monad *)

Lemma bind_Ok {A B} (e : res A) (f : A → res B) b :
  e ≫= f = Ok b ↔ ∃ a, e = Ok a ∧ f a = Ok b.
Proof.
  destruct e as [a|]; simpl; split.
  - intros H; exists a; auto.
  - by intros (a' & [= <-] & H).
  - discriminate.
  - by intros (a' & [=] & _).
Qed.

Section res_facts.

Context {A B : Type}.

Lemma traverse_Ok (f : A → res B) l k :
  traverse f l = Ok k ↔ Forall2 (λ x y, f x = Ok y) l k.
Proof.
  revert k; induction l as [|x l IH]; intros k.
  - split; [intros [= <-]; constructor | intros ->%Forall2_nil_inv_l; done].
  - change (traverse f (x :: l)) with (y ← f x; k ← traverse f l; Ok (y :: k)).
    rewrite bind_Ok. setoid_rewrite bind_Ok. split.
    + intros (y & Hy & k' & Hk & [= <-]). constructor; [done | by apply IH].
    + intros (y & k' & Hy & Hk & ->)%Forall2_cons_inv_l.
      exists y; split; [done|]. exists k'; split; [by apply IH | done].
Qed.

Lemma traverse_total (f : A → res B) (g : A → B) l :
  Forall (λ x, f x = Ok (g x)) l → traverse f l = Ok (g <$> l).
Proof.
  intros H. apply traverse_Ok. induction H; constructor; auto.
Qed.

End res_facts.

Lemma getitem_Ok df c s :
  getitem df c = Ok s ↔ c ∈ columns df ∧ s = cell c <$> rows df.
Proof.
  unfold getitem. case_decide; split; try done.
  - by intros [= <-].
  - by intros [_ ->].
  - by intros [? _].
Qed.

(** ** Masks and selections *)

Section selections.

Lemma select_sublist (rs : list row) mask : select rs mask `sublist_of` rs.
Proof.
  revert mask; induction rs as [|r rs IH]; intros [|[] mask]; simpl;
    try constructor; auto using sublist_nil_l.
Qed.

Lemma select_fmap (f : row → bool) (rs : list row) :
  select rs (f <$> rs) = filter (λ r, Is_true (f r)) rs.
Proof.
  induction rs as [|r rs IH]; [done|].
  rewrite fmap_cons, filter_cons. cbn [select]. rewrite IH.
  by destruct (f r).
Qed.

Lemma select_all (rs : list row) mask :
  Forall2 (λ _ b, b = true) rs mask → select rs mask = rs.
Proof. induction 1 as [|r b rs mask -> _ IH]; simpl; congruence. Qed.

Lemma Forall2_select {P : row → bool → Prop} (rs : list row) mask :
  Forall2 P rs mask → Forall (λ r, P r true) (select rs mask).
Proof.
  induction 1 as [|r [] rs mask Hr _ IH]; simpl; auto.
Qed.

Lemma Forall_filtered {A} (P Q : A → Prop) `{∀ x, Decision (Q x)} (l : list A) :
  Forall P l → Forall P (filter Q l).
Proof.
  rewrite !Forall_forall. intros HP x [_ Hx]%list_elem_of_filter. auto.
Qed.

End selections.

(** ** The filter, row by row *)

Section filter.

Context (G : list string) (Y P : Z * Z).

Lemma mask_of_Ok (rs : list row) m :
  mask_of G Y P rs = Ok m ↔ Forall2 (λ r b, keep G Y P r = Ok b) rs m.
Proof.
  unfold mask_of, series_ge, series_le. split.
  - intros H.
    apply bind_Ok in H as (m2 & H2%traverse_Ok%Forall2_fmap_l & H).
    apply bind_Ok in H as (m3 & H3%traverse_Ok%Forall2_fmap_l & H).
    apply bind_Ok in H as (m4 & H4%traverse_Ok%Forall2_fmap_l & H).
    apply bind_Ok in H as (m5 & H5%traverse_Ok%Forall2_fmap_l & [= <-]).
    revert m3 m4 m5 H3 H4 H5.
    induction H2 as [|r b2 rs m2 Hb2 _ IH]; intros m3 m4 m5 H3 H4 H5.
    { apply Forall2_nil_inv_l in H3 as ->. constructor. }
    apply Forall2_cons_inv_l in H3 as (b3 & m3' & Hb3 & H3 & ->).
    apply Forall2_cons_inv_l in H4 as (b4 & m4' & Hb4 & H4 & ->).
    apply Forall2_cons_inv_l in H5 as (b5 & m5' & Hb5 & H5 & ->).
    rewrite fmap_cons. constructor; [|by apply IH].
    unfold keep. by rewrite Hb2, Hb3, Hb4, Hb5.
  - induction 1 as [|r b rs m Hr _ IH]; [done|].
    apply bind_Ok in IH as (m2 & H2 & IH). apply bind_Ok in IH as (m3 & H3 & IH).
    apply bind_Ok in IH as (m4 & H4 & IH). apply bind_Ok in IH as (m5 & H5 & [= <-]).
    unfold keep in Hr. apply bind_Ok in Hr as (b2 & Hb2 & Hr).
    apply bind_Ok in Hr as (b3 & Hb3 & Hr). apply bind_Ok in Hr as (b4 & Hb4 & Hr).
    apply bind_Ok in Hr as (b5 & Hb5 & [= <-]).
    rewrite !fmap_cons. cbn [traverse].
    by rewrite Hb2, H2, Hb3, H3, Hb4, H4, Hb5, H5.
Qed.

Lemma filtered_df_Ok df view :
  filtered_df df G Y P = Ok view ↔
    "Genre" ∈ columns df ∧ "release_year" ∈ columns df ∧ "Popularity" ∈ columns df
    ∧ ∃ mask, Forall2 (λ r b, keep G Y P r = Ok b) (rows df) mask
              ∧ view = {| columns := columns df; rows := select (rows df) mask |}.
Proof.
  unfold filtered_df. split.
  - intros H.
    apply bind_Ok in H as (g & [Hg ->]%getitem_Ok & H).
    apply bind_Ok in H as (y & [Hy ->]%getitem_Ok & H).
    apply bind_Ok in H as (m2 & H2 & H).
    apply bind_Ok in H as (y & [_ ->]%getitem_Ok & H).
    apply bind_Ok in H as (m3 & H3 & H).
    apply bind_Ok in H as (p & [Hp ->]%getitem_Ok & H).
    apply bind_Ok in H as (m4 & H4 & H).
    apply bind_Ok in H as (p & [_ ->]%getitem_Ok & H).
    apply bind_Ok in H as (m5 & H5 & H).
    unfold getitem_mask in H. case_decide; [|done]. injection H as <-.
    do 3 (split; [done|]). eexists; split; [|done].
    apply mask_of_Ok. unfold mask_of. by rewrite H2, H3, H4, H5.
  - intros (Hg & Hy & Hp & mask & HF & ->).
    pose proof (Forall2_length _ _ _ HF) as Hlen.
    apply mask_of_Ok in HF. unfold mask_of in HF.
    apply bind_Ok in HF as (m2 & H2 & HF). apply bind_Ok in HF as (m3 & H3 & HF).
    apply bind_Ok in HF as (m4 & H4 & HF). apply bind_Ok in HF as (m5 & H5 & [= <-]).
    unfold getitem. rewrite !decide_True by done. simpl.
    rewrite H2. simpl. rewrite H3. simpl. rewrite H4. simpl. rewrite H5. simpl.
    unfold getitem_mask. by rewrite decide_True.
Qed.

Lemma retained_iff (r : row) :
  retained G Y P r ↔
    ∃ g y p, r !! "Genre" = Some (VStr g) ∧ r !! "release_year" = Some (VInt y)
             ∧ r !! "Popularity" = Some (VInt p)
             ∧ g ∈ G ∧ (Y.1 ≤ y ≤ Y.2)%Z ∧ (P.1 ≤ p ≤ P.2)%Z.
Proof.
  unfold retained. split.
  - destruct (r !! "Genre") as [[g| | | |]|]; try done.
    destruct (r !! "release_year") as [[|y| | |]|]; try done.
    destruct (r !! "Popularity") as [[|p| | |]|]; try done.
    intros (? & ? & ?). by exists g, y, p.
  - by intros (g & y & p & -> & -> & -> & ?).
Qed.

Lemma keep_song (r : row) : song r → keep G Y P r = Ok (bool_decide (retained G Y P r)).
Proof.
  intros (g & y & p & Hg & Hy & Hp).
  unfold keep, cell. rewrite Hg, Hy, Hp. simpl. f_equal.
  apply eq_true_iff_eq.
  rewrite bool_decide_eq_true, retained_iff, !andb_true_iff, bool_decide_eq_true,
    !Z.leb_le.
  split.
  - intros. exists g, y, p. tauto.
  - intros (g' & y' & p' & Hg' & Hy' & Hp' & ?). simplify_eq. tauto.
Qed.

Lemma filtered_df_Dataset df :
  Dataset df →
  filtered_df df G Y P =
    Ok {| columns := columns df; rows := filter (retained G Y P) (rows df) |}.
Proof.
  intros (Hg & Hy & Hp & Hsongs). apply filtered_df_Ok. do 3 (split; [done|]).
  exists ((λ r, bool_decide (retained G Y P r)) <$> rows df). split.
  - apply Forall2_fmap_r, Forall_Forall2_diag.
    eapply Forall_impl; [done|]. apply keep_song.
  - f_equal. rewrite select_fmap. apply list_filter_iff.
    intros r. symmetry. apply bool_decide_spec.
Qed.

Lemma filtered_df_again df view :
  filtered_df df G Y P = Ok view → filtered_df view G Y P = Ok view.
Proof.
  intros (Hg & Hy & Hp & mask & HF & ->)%filtered_df_Ok.
  apply filtered_df_Ok. do 3 (split; [done|]). simpl.
  exists (replicate (length (select (rows df) mask)) true). split.
  - apply Forall2_select in HF. revert HF. generalize (select (rows df) mask).
    induction 1; simpl; constructor; auto.
  - f_equal. symmetry. apply select_all.
    generalize (select (rows df) mask). induction l; simpl; constructor; auto.
Qed.

End filter.

(** ** The filter logic as a statement *)

Section filter_logic.

Context (w : world) (df : loc) (Y P : Z * Z).

Lemma filter_logic_empty :
  filter_logic df [] Y P w
  = (Stopped, drawn w (warning_box "Please select at least one genre.")).
Proof. reflexivity. Qed.

Lemma filter_logic_run ds G :
  G ≠ [] → objects w !! df = Some ds →
  filter_logic df G Y P w =
    match filtered_df ds G Y P with
    | Ok view => (Returned (length (objects w)), allocated w view)
    | Err e => (Raised e, w)
    end.
Proof.
  intros HG Hdf. unfold filter_logic. rewrite bool_decide_false by done.
  unfold mbind, script_bind, mret, script_ret, deref, eval, new_object.
  rewrite Hdf. by destruct (filtered_df ds G Y P).
Qed.

Lemma filter_logic_frame G r w' :
  filter_logic df G Y P w = (r, w') →
  files w' = files w ∧ ∃ new, objects w' = objects w ++ new.
Proof.
  unfold filter_logic, mbind, script_bind, mret, script_ret, deref, eval,
    new_object, st_warning, st_stop, draw.
  case_bool_decide; simpl.
  { intros [= <- <-]. split; [done|]. exists []. by rewrite app_nil_r. }
  destruct (objects w !! df) as [ds|]; simpl.
  - destruct (filtered_df ds G Y P); intros [= <- <-]; simpl;
      (split; [done|]); [by eexists | exists []; by rewrite app_nil_r].
  - intros [= <- <-]. split; [done|]. exists []. by rewrite app_nil_r.
Qed.

End filter_logic.

Ltac dataset :=
  unfold Dataset, years_known; split_and!;
  [ apply list_elem_of_In; simpl; tauto ..
  | repeat (constructor; [ repeat eexists; vm_compute; reflexivity | ]);
    constructor ].

Lemma example_is_dataset : Dataset example_dataset.
Proof. dataset. Qed.

(** ** The filter engine *)

(** C1: on a Dataset and with a non-empty genre selection, the filter
    returns a view that retains a row if and only if the row's genre is
    selected, its release year lies in the year range and its popularity in
    the popularity range; loading the two-row example and filtering with
    genres [Pop], years 2000 to 2020 and popularity 50 to 100 leaves exactly
    the row titled A. *)
Theorem filter_retains :
  (∀ (w : world) (df : loc) (ds : DataFrame) (G : list string) (Y P : Z * Z),
     objects w !! df = Some ds → Dataset ds → G ≠ [] →
     ∃ view,
       filter_logic df G Y P w = (Returned (length (objects w)), allocated w view)
       ∧ columns view = columns ds
       ∧ rows view = filter (retained G Y P) (rows ds)
       ∧ ∀ r, r ∈ rows view ↔
              r ∈ rows ds
              ∧ ∃ g y p, r !! "Genre" = Some (VStr g)
                         ∧ r !! "release_year" = Some (VInt y)
                         ∧ r !! "Popularity" = Some (VInt p)
                         ∧ g ∈ G ∧ (Y.1 ≤ y ≤ Y.2)%Z ∧ (P.1 ≤ p ≤ P.2)%Z)
  ∧ ∃ df w1 view r,
      load_data (disk (Table example_file)) = (Returned df, w1)
      ∧ filter_logic df ["Pop"] (2000, 2020)%Z (50, 100)%Z w1
        = (Returned (length (objects w1)), allocated w1 view)
      ∧ rows view = [r]
      ∧ r !! "Title" = Some (VStr "A").
Proof.
  split.
  - intros w df ds G Y P Hdf Hds HG.
    exists {| columns := columns ds; rows := filter (retained G Y P) (rows ds) |}.
    rewrite (filter_logic_run _ _ _ _ ds) by done.
    rewrite filtered_df_Dataset by done.
    split_and!; try done. intros r; simpl.
    rewrite list_elem_of_filter, retained_iff. tauto.
  - eexists _, _, _, _. split_and!.
    + vm_compute. reflexivity.
    + vm_compute. reflexivity.
    + reflexivity.
    + vm_compute. reflexivity.
Qed.

Lemma filter_retains_witness :
  ∃ view,
    filter_logic 0 ["Pop"] (2000, 2020)%Z (50, 100)%Z (holding example_dataset)
    = (Returned 1%nat, allocated (holding example_dataset) view)
    ∧ columns view = columns example_dataset
    ∧ rows view = filter (retained ["Pop"] (2000, 2020)%Z (50, 100)%Z)
                    (rows example_dataset)
    ∧ ∀ r, r ∈ rows view ↔
           r ∈ rows example_dataset
           ∧ ∃ g y p, r !! "Genre" = Some (VStr g)
                      ∧ r !! "release_year" = Some (VInt y)
                      ∧ r !! "Popularity" = Some (VInt p)
                      ∧ g ∈ ["Pop"] ∧ (2000 ≤ y ≤ 2020)%Z ∧ (50 ≤ p ≤ 100)%Z.
Proof.
  apply (proj1 filter_retains (holding example_dataset) 0%nat example_dataset);
    [reflexivity | dataset | discriminate].
Defined.

(** C3: with no genre selected the filter logic stops the run with the
    warning on the page and nothing else: no view is bound, and the explorer
    draws neither a count nor a table. *)
Theorem empty_selection (w : world) (df : loc) (Y P : Z * Z) :
  filter_logic df [] Y P w
    = (Stopped, drawn w (warning_box "Please select at least one genre."))
  ∧ song_explorer df [] Y P w
    = (Stopped, drawn w (warning_box "Please select at least one genre.")).
Proof. split; reflexivity. Qed.

(** C5: filtering a filtered view again with the same arguments gives the
    same view; on a Dataset the filter does return a view. *)
Theorem filter_idempotent (df : DataFrame) (G : list string) (Y P : Z * Z) :
  (filtered_df df G Y P ≫= λ view, filtered_df view G Y P) = filtered_df df G Y P
  ∧ (Dataset df → G ≠ [] →
     ∃ view, filtered_df df G Y P = Ok view ∧ filtered_df view G Y P = Ok view).
Proof.
  split.
  - destruct (filtered_df df G Y P) as [view|] eqn:H; [|done].
    simpl. by apply (filtered_df_again _ _ _ df).
  - intros Hds _. eexists. split; [by apply filtered_df_Dataset|].
    eapply filtered_df_again. by apply filtered_df_Dataset.
Qed.

Lemma filter_idempotent_witness :
  ∃ view, filtered_df example_dataset ["Pop"; "Rock"] (2011, 2020)%Z (0, 100)%Z = Ok view
          ∧ filtered_df view ["Pop"; "Rock"] (2011, 2020)%Z (0, 100)%Z = Ok view.
Proof.
  apply (proj2 (filter_idempotent example_dataset ["Pop"; "Rock"]
                  (2011, 2020)%Z (0, 100)%Z)); [dataset | discriminate].
Defined.

(** C7: the filter logic leaves the object of the base dataset, every
    other object and the files as they were; when it returns, the view is a
    new object with the columns of the dataset and a selection of its rows. *)
Theorem filter_frame (w : world) (df : loc) (ds : DataFrame)
    (G : list string) (Y P : Z * Z) (r : outcome loc) (w' : world) :
  objects w !! df = Some ds →
  filter_logic df G Y P w = (r, w') →
  objects w' !! df = Some ds
  ∧ (∀ l d, objects w !! l = Some d → objects w' !! l = Some d)
  ∧ files w' = files w
  ∧ (∀ l, r = Returned l →
       l ≠ df ∧ objects w !! l = None
       ∧ ∃ view, objects w' !! l = Some view
                 ∧ columns view = columns ds
                 ∧ rows view `sublist_of` rows ds)
  ∧ (Dataset ds → G ≠ [] → ∃ l, r = Returned l).
Proof.
  intros Hdf Hrun.
  destruct (filter_logic_frame _ _ _ _ _ _ _ Hrun) as [Hfiles [new Hnew]].
  assert (Hold : ∀ l d, objects w !! l = Some d → objects w' !! l = Some d).
  { intros l d Hl. rewrite Hnew. by apply lookup_app_l_Some. }
  split_and!; auto.
  - intros l ->. destruct (decide (G = [])) as [->|HG].
    { by rewrite filter_logic_empty in Hrun. }
    rewrite (filter_logic_run _ _ _ _ ds) in Hrun by done.
    destruct (filtered_df ds G Y P) as [view|] eqn:Hview; [|done].
    injection Hrun as <- <-.
    assert (objects w !! length (objects w) = None) as Hfresh
      by (apply lookup_ge_None; lia).
    split_and!; [congruence | done |].
    exists view. simpl. rewrite list_lookup_middle by done.
    apply filtered_df_Ok in Hview as (_ & _ & _ & mask & _ & ->).
    split_and!; [done | done | apply select_sublist].
  - intros Hds HG. rewrite (filter_logic_run _ _ _ _ ds) in Hrun by done.
    rewrite filtered_df_Dataset in Hrun by done. injection Hrun as <- _. by eexists.
Qed.

Lemma filter_frame_witness :
  objects (filter_logic 0 ["Rock"] (2000, 2020)%Z (0, 100)%Z
             (holding example_dataset)).2 !! 0%nat = Some example_dataset.
Proof.
  refine (proj1 (filter_frame (holding example_dataset) 0%nat example_dataset
                   ["Rock"] (2000, 2020)%Z (0, 100)%Z _ _ _ _));
    [reflexivity | apply surjective_pairing].
Defined.

(** C10: the rows of the filtered view are rows of the dataset itself, each
    with all its fields, in the order they have in the dataset. *)
Theorem filter_keeps_rows_in_order (df : DataFrame) (G : list string) (Y P : Z * Z) :
  (∀ view, filtered_df df G Y P = Ok view →
           columns view = columns df ∧ rows view `sublist_of` rows df)
  ∧ (Dataset df → ∃ view, filtered_df df G Y P = Ok view).
Proof.
  split.
  - intros view (_ & _ & _ & mask & _ & ->)%filtered_df_Ok.
    split; [done | apply select_sublist].
  - intros Hds. eexists. by apply filtered_df_Dataset.
Qed.

Lemma filter_keeps_rows_in_order_witness :
  ∃ view, filtered_df example_dataset ["Rock"; "Pop"] (2000, 2020)%Z (0, 100)%Z = Ok view.
Proof.
  apply (proj2 (filter_keeps_rows_in_order example_dataset ["Rock"; "Pop"]
                  (2000, 2020)%Z (0, 100)%Z)); dataset.
Defined.

(** ** Running statements *)

Section running.

Context {A B : Type}.

Lemma bind_run (m : script A) (f : A → script B) w a w' :
  m w = (Returned a, w') → (m ≫= f) w = f a w'.
Proof. unfold mbind, script_bind. by intros ->. Qed.

Lemma bind_raise (m : script A) (f : A → script B) w e w' :
  m w = (Raised e, w') → (m ≫= f) w = (Raised e, w').
Proof. unfold mbind, script_bind. by intros ->. Qed.

Lemma bind_stop (m : script A) (f : A → script B) w w' :
  m w = (Stopped, w') → (m ≫= f) w = (Stopped, w').
Proof. unfold mbind, script_bind. by intros ->. Qed.

Lemma eval_Ok (r : res A) a w : r = Ok a → eval r w = (Returned a, w).
Proof. by intros ->. Qed.

End running.

Lemma deref_run w l d : objects w !! l = Some d → deref l w = (Returned d, w).
Proof. unfold deref. by intros ->. Qed.

Lemma assign_column_run w l d c s d' :
  objects w !! l = Some d → setitem d c s = Ok d' →
  assign_column l c s w = (Returned (), updated w l d').
Proof.
  intros Hl Hs. unfold assign_column.
  erewrite bind_run by (by apply deref_run).
  erewrite bind_run by (by apply eval_Ok). done.
Qed.

(** ** The loader *)

Section loader.

Lemma setitem_fmap df c (f : row → value) :
  setitem df c (f <$> rows df) =
    Ok {| columns := if decide (c ∈ columns df) then columns df else columns df ++ [c];
          rows := (λ r, <[c := f r]> r) <$> rows df |}.
Proof.
  unfold setitem, len. rewrite decide_True by apply length_fmap.
  by rewrite zip_with_fmap_r, zip_with_diag.
Qed.

Lemma to_datetime_cell_kind zeros v :
  (∃ d, to_datetime_cell zeros v = VTime d) ∨ to_datetime_cell zeros v = VNaN.
Proof.
  destruct v as [s| | |d|]; simpl; eauto.
  destruct (Strptime.strptime zeros s); eauto.
Qed.

Lemma existsb_fmap {A B} (f : B → bool) (g : A → B) (l : list A) :
  existsb f (g <$> l) = existsb (f ∘ g) l.
Proof. induction l as [|x l IH]; [done|]. rewrite fmap_cons. simpl. by rewrite IH. Qed.

Lemma dt_year_over zeros (g : row → value) (l : list row) :
  dt_year ((λ r, to_datetime_cell zeros (g r)) <$> l) =
    Ok ((λ r, year_cell (existsb (λ r, isna (to_datetime_cell zeros (g r))) l)
                (to_datetime_cell zeros (g r))) <$> l).
Proof.
  unfold dt_year. rewrite existsb_fmap.
  change (isna ∘ _) with (λ r, isna (to_datetime_cell zeros (g r))).
  generalize (existsb (λ r, isna (to_datetime_cell zeros (g r))) l) as fl. intros fl.
  rewrite (list_fmap_compose (λ r, to_datetime_cell zeros (g r)) (year_cell fl)).
  apply traverse_total, Forall_fmap, Forall_forall. intros r _. simpl.
  by destruct (to_datetime_cell_kind zeros (g r)) as [[d ->]| ->].
Qed.

Lemma cell_insert c v (r : row) : cell c (<[c := v]> r) = v.
Proof. unfold cell. by rewrite lookup_insert_eq. Qed.

Lemma cell_insert_ne c c' v (r : row) : c ≠ c' → cell c' (<[c := v]> r) = cell c' r.
Proof. intros. unfold cell. by rewrite lookup_insert_ne. Qed.

Lemma derived_columns_year cs : "release_year" ∈ derived_columns cs.
Proof.
  unfold derived_columns. case_decide; [done|]. apply elem_of_app. right. by left.
Qed.

Lemma allocated_lookup w d : objects (allocated w d) !! length (objects w) = Some d.
Proof. simpl. by apply list_lookup_middle. Qed.

Lemma updated_allocated w d d' :
  updated (allocated w d) (length (objects w)) d' = allocated w d'.
Proof.
  unfold updated, allocated. simpl. f_equal.
  rewrite <-(Nat.add_0_r (length (objects w))). by rewrite insert_app_r.
Qed.

Lemma setitem_over cs (g : row → row) (l : list row) c (f : row → value) :
  setitem {| columns := cs; rows := g <$> l |} c (f <$> l) =
    Ok {| columns := if decide (c ∈ cs) then cs else cs ++ [c];
          rows := (λ r, <[c := f r]> (g r)) <$> l |}.
Proof.
  unfold setitem, len. simpl. rewrite decide_True by (by rewrite !length_fmap).
  by rewrite zip_with_fmap_l, zip_with_fmap_r, zip_with_diag.
Qed.

Lemma added_column (c : string) cs :
  c ∈ (if decide (c ∈ cs) then cs else cs ++ [c]).
Proof. case_decide; [done|]. apply elem_of_app. right. by left. Qed.

Lemma loaded_row_Some zeros (r r' : row) :
  loaded_row zeros r = Some r' →
  ∃ d, to_datetime_cell zeros (cell "Release Date" r) = VTime d
       ∧ r' = <["release_year" := VInt (year d)]> (<["release_datetime" := VTime d]> r).
Proof.
  unfold loaded_row.
  destruct (to_datetime_cell zeros (cell "Release Date" r)) as [| | |d|]; try done.
  intros [= <-]. by exists d.
Qed.

Lemma loaded_rows_year zeros (l : list row) :
  Forall (λ r' : row, ∃ d, r' !! "release_datetime" = Some (VTime d)
                          ∧ r' !! "release_year" = Some (VInt (year d)))
    (omap (loaded_row zeros) l).
Proof.
  apply Forall_forall. intros r' (r & _ & Hr)%list_elem_of_omap.
  apply loaded_row_Some in Hr as (d & _ & ->). exists d.
  by rewrite lookup_insert_eq, lookup_insert_ne, lookup_insert_eq.
Qed.

Lemma dropna_prepared zeros raw :
  dropna (prepared zeros raw) "release_year" = Ok (kept zeros raw).
Proof.
  unfold dropna, getitem. rewrite decide_True by apply derived_columns_year.
  simpl. unfold kept. do 2 f_equal.
  generalize (unparsed zeros raw) as fl. intros fl.
  induction (rows raw) as [|r l IH]; [done|].
  rewrite !fmap_cons. cbn [select omap list_omap]. rewrite IH. clear IH.
  unfold kept_row, stamp at 1. cbn zeta. rewrite cell_insert.
  destruct (to_datetime_cell_kind zeros (cell "Release Date" r)) as [[d ->]| ->];
    [by destruct fl | done].
Qed.

Lemma kept_or_dropped zeros fl (r : row) :
  (kept_row zeros fl r = None ∧ loaded_row zeros r = None)
  ∨ ∃ d, kept_row zeros fl r
         = Some (<["release_year" := year_cell fl (VTime d)]>
                   (<["release_datetime" := VTime d]> r))
         ∧ loaded_row zeros r
           = Some (<["release_year" := VInt (year d)]>
                     (<["release_datetime" := VTime d]> r)).
Proof.
  unfold kept_row, loaded_row, stamp.
  destruct (to_datetime_cell zeros (cell "Release Date" r)); eauto.
Qed.

(** The years that [dropna] leaves are floats when a row was dropped, and
    [astype(int)] makes integers of them. *)
Lemma astype_int_kept zeros fl (l : list row) :
  astype_int (cell "release_year" <$> omap (kept_row zeros fl) l) =
    Ok (cell "release_year" <$> omap (loaded_row zeros) l).
Proof.
  unfold astype_int. induction l as [|r l IH]; [done|]. cbn [omap list_omap].
  destruct (kept_or_dropped zeros fl r) as [[-> ->]|(d & -> & ->)]; [done|].
  rewrite !fmap_cons, !cell_insert. cbn [traverse]. rewrite IH.
  destruct fl; simpl; [|done]. by rewrite Z.quot_1_r.
Qed.

Lemma setitem_kept zeros raw :
  setitem (kept zeros raw) "release_year"
    (cell "release_year" <$> rows (loaded zeros raw)) = Ok (loaded zeros raw).
Proof.
  unfold setitem, len, kept, loaded. simpl.
  generalize (unparsed zeros raw) as fl. intros fl.
  assert (Hrows : length (omap (loaded_row zeros) (rows raw))
                  = length (omap (kept_row zeros fl) (rows raw))
                  ∧ zip_with (λ (r : row) v, <["release_year" := v]> r)
                      (omap (kept_row zeros fl) (rows raw))
                      (cell "release_year" <$> omap (loaded_row zeros) (rows raw))
                    = omap (loaded_row zeros) (rows raw)).
  { induction (rows raw) as [|r l [IH1 IH2]]; [done|]. cbn [omap list_omap].
    destruct (kept_or_dropped zeros fl r) as [[-> ->]|(d & -> & ->)]; [by split|].
    rewrite fmap_cons. simpl. rewrite IH1, IH2. split; [done|]. f_equal.
    by rewrite cell_insert, insert_insert_eq. }
  destruct Hrows as [Hlen Hzip].
  rewrite decide_True by (by rewrite length_fmap).
  rewrite decide_True by apply derived_columns_year. by rewrite Hzip.
Qed.

Lemma load_data_table w t :
  files w !! file_path = Some (Table t) →
  "Release Date" ∈ header t →
  load_data w = (Returned (S (length (objects w))),
                 allocated (allocated w (prepared (decimal_zeros w) (frame_of t)))
                   (loaded (decimal_zeros w) (frame_of t))).
Proof.
  intros Hfile Hcol. unfold load_data, try_except.
  erewrite bind_run; [|by unfold read_csv; rewrite Hfile].
  change (header t) with (columns (frame_of t)) in Hcol.
  generalize dependent (frame_of t). intros raw Hcol.
  set (zeros := decimal_zeros w).
  erewrite bind_run; [|apply deref_run, allocated_lookup].
  erewrite bind_run; [|apply eval_Ok, getitem_Ok; by split].
  erewrite bind_run; [|reflexivity].
  erewrite bind_run; [|eapply assign_column_run; [apply allocated_lookup|]].
  2: { unfold to_datetime. simpl decimal_zeros. fold zeros.
       rewrite <-list_fmap_compose. apply setitem_fmap. }
  rewrite updated_allocated.
  erewrite bind_run; [|apply deref_run, allocated_lookup].
  erewrite bind_run; [|apply eval_Ok, getitem_Ok; split; [apply added_column|done]].
  simpl rows. rewrite <-list_fmap_compose.
  erewrite bind_run; [|apply eval_Ok].
  2: { erewrite list_fmap_ext; [apply (dt_year_over zeros (cell "Release Date"))|].
       intros ? r _. simpl. apply cell_insert. }
  erewrite bind_run; [|eapply assign_column_run; [apply allocated_lookup|]].
  2: apply setitem_over.
  rewrite updated_allocated.
  erewrite bind_run; [|apply deref_run, allocated_lookup].
  erewrite bind_run; [|apply eval_Ok, (dropna_prepared zeros raw)].
  erewrite bind_run; [|done].
  erewrite bind_run; [|apply deref_run, allocated_lookup].
  erewrite bind_run; [|apply eval_Ok, getitem_Ok; split; [apply derived_columns_year|done]].
  erewrite bind_run; [|apply eval_Ok, astype_int_kept].
  erewrite bind_run; [|eapply assign_column_run; [apply allocated_lookup|]].
  2: apply setitem_kept.
  rewrite updated_allocated. unfold mret, script_ret. do 2 f_equal.
  simpl. rewrite length_app. simpl. lia.
Qed.

Lemma load_data_not_found w :
  files w !! file_path = None →
  load_data w = (Stopped, drawn w (error_box
    "Error: The data file 'songs_2000_2020_50k.csv' was not found.")).
Proof.
  intros Hfile. unfold load_data, try_except.
  erewrite bind_raise; [|by unfold read_csv; rewrite Hfile]. reflexivity.
Qed.

Lemma load_data_unreadable w msg :
  files w !! file_path = Some (Unreadable msg) →
  load_data w = (Stopped, drawn w (error_box
    ("An error occurred while loading the data: " +:+ msg))).
Proof.
  intros Hfile. unfold load_data, try_except.
  erewrite bind_raise; [|by unfold read_csv; rewrite Hfile]. reflexivity.
Qed.

Lemma load_data_no_date w t :
  files w !! file_path = Some (Table t) →
  "Release Date" ∉ header t →
  load_data w = (Stopped, drawn (allocated w (frame_of t)) (error_box
    "An error occurred while loading the data: 'Release Date'")).
Proof.
  intros Hfile Hcol. unfold load_data, try_except.
  erewrite bind_run; [|by unfold read_csv; rewrite Hfile].
  erewrite bind_run; [|apply deref_run, allocated_lookup].
  erewrite bind_raise; [|unfold eval, getitem; by rewrite decide_False].
  reflexivity.
Qed.

Lemma strptime_valid zeros s d :
  Strptime.strptime zeros s = Some d → Strptime.valid_date d = true.
Proof.
  unfold Strptime.strptime.
  match goal with |- context [match ?found with _ => _ end] =>
    destruct found as [|[d' [|? ?]] ?] end; try done.
  destruct (Strptime.valid_date d') eqn:E; [|done]. by intros [= <-].
Qed.

Lemma strptime_year zeros s d :
  Strptime.strptime zeros s = Some d → (1 ≤ year d ≤ 9999)%Z.
Proof.
  intros H%strptime_valid. unfold Strptime.valid_date in H.
  rewrite !andb_true_iff, !Z.leb_le in H. lia.
Qed.

Lemma loaded_row_frame zeros t (r : row) :
  r ∈ rows (frame_of t) → loaded_row zeros r = with_year zeros r.
Proof.
  intros (rec & -> & _)%list_elem_of_fmap.
  unfold loaded_row, with_year, release_date, cell. rewrite lookup_fmap.
  destruct (rec !! "Release Date") as [[s| | |]|]; simpl; try done.
  by destruct (Strptime.strptime zeros s).
Qed.

Lemma loaded_frame zeros t :
  rows (loaded zeros (frame_of t)) = omap (with_year zeros) (rows (frame_of t)).
Proof.
  simpl. apply list_omap_ext. apply Forall_Forall2_diag, Forall_forall.
  intros r Hr. by apply (loaded_row_frame zeros t).
Qed.

Lemma loaded_lookup w (d1 d2 : DataFrame) :
  objects (allocated (allocated w d1) d2) !! S (length (objects w)) = Some d2.
Proof.
  simpl. rewrite (list_lookup_middle _ []); [done|]. rewrite length_app. simpl. lia.
Qed.

Lemma loaded_records_parsed zeros t :
  Forall (λ r : row, ∃ s d,
            r !! "Release Date" = Some (VStr s)
            ∧ Strptime.strptime zeros s = Some d
            ∧ r !! "release_datetime" = Some (VTime d)
            ∧ r !! "release_year" = Some (VInt (year d))
            ∧ (1 ≤ year d ≤ 9999)%Z) (rows (loaded zeros (frame_of t))).
Proof.
  rewrite loaded_frame. apply Forall_forall.
  intros r' (r & _ & Hr)%list_elem_of_omap.
  unfold with_year, release_date in Hr.
  destruct (r !! "Release Date") as [[s| | | |]|] eqn:Hs; try done.
  destruct (Strptime.strptime zeros s) as [d|] eqn:Hd; [|done].
  injection Hr as <-. exists s, d.
  rewrite lookup_insert_eq, !lookup_insert_ne, lookup_insert_eq by done.
  apply strptime_year in Hd as Hy. split_and!; try done; lia.
Qed.

End loader.

(** C2, as the code has it: a file that can be read and has a Release Date
    column is always loaded, and the records of the dataset are the records
    of the file whose Release Date parses under the day-month-year format,
    in order, the others being left out; every record of the dataset holds
    the datetime parsed from its Release Date and, as release year, the
    year of that datetime as an integer, which lies between 1 and 9999.
    The loader returns for no other file. *)
Theorem loader_invariant (w : world) :
  (∀ t, files w !! file_path = Some (Table t) → "Release Date" ∈ header t →
     ∃ df w' ds,
       load_data w = (Returned df, w')
       ∧ objects w' !! df = Some ds
       ∧ rows ds = omap (with_year (decimal_zeros w)) (rows (frame_of t))
       ∧ years_known ds
       ∧ Forall (λ r : row, ∃ s d,
                   r !! "Release Date" = Some (VStr s)
                   ∧ Strptime.strptime (decimal_zeros w) s = Some d
                   ∧ r !! "release_datetime" = Some (VTime d)
                   ∧ r !! "release_year" = Some (VInt (year d))
                   ∧ (1 ≤ year d ≤ 9999)%Z) (rows ds))
  ∧ (∀ df w', load_data w = (Returned df, w') →
       ∃ t, files w !! file_path = Some (Table t) ∧ "Release Date" ∈ header t).
Proof.
  split.
  - intros t Hfile Hcol. rewrite (load_data_table _ _ Hfile Hcol).
    eexists _, _, (loaded (decimal_zeros w) (frame_of t)).
    split; [reflexivity|]. split; [apply loaded_lookup|].
    split; [apply loaded_frame|].
    pose proof (loaded_records_parsed (decimal_zeros w) t) as Hrows.
    split; [|done]. split; [apply derived_columns_year|].
    eapply Forall_impl; [exact Hrows|]. intros r (s & d & _ & _ & _ & Hy & _). eauto.
  - intros df w' Hload.
    destruct (files w !! file_path) as [[t|msg]|] eqn:Hfile.
    2: { by rewrite (load_data_unreadable _ _ Hfile) in Hload. }
    2: { by rewrite (load_data_not_found _ Hfile) in Hload. }
    destruct (decide ("Release Date" ∈ header t)) as [Hcol|Hcol].
    2: { by rewrite (load_data_no_date _ _ Hfile Hcol) in Hload. }
    by exists t.
Qed.

Lemma loader_invariant_witness :
  ∃ df w' ds,
    load_data (disk (Table mixed_dates)) = (Returned df, w')
    ∧ objects w' !! df = Some ds
    ∧ rows ds = omap (with_year unicode_15) (rows (frame_of mixed_dates))
    ∧ years_known ds
    ∧ Forall (λ r : row, ∃ s d,
                r !! "Release Date" = Some (VStr s)
                ∧ Strptime.strptime unicode_15 s = Some d
                ∧ r !! "release_datetime" = Some (VTime d)
                ∧ r !! "release_year" = Some (VInt (year d))
                ∧ (1 ≤ year d ≤ 9999)%Z) (rows ds).
Proof.
  apply (proj1 (loader_invariant (disk (Table mixed_dates))) mixed_dates).
  - reflexivity.
  - apply list_elem_of_In. simpl. tauto.
Defined.

(** What the loader makes of the file of mixed dates: the two records whose
    dates parse, with integer years, the one written in Arabic-Indic digits
    among them. *)
Example mixed_dates_loaded :
  (load_data (disk (Table mixed_dates))).1 = Returned 1%nat
  ∧ (λ ds, (λ r : row, (cell "Title" r, cell "release_year" r)) <$> rows ds)
      <$> objects (load_data (disk (Table mixed_dates))).2 !! 1%nat
    = Some [(VStr "A", VInt 2010); (VStr "C", VInt 2015)].
Proof. split; vm_compute; reflexivity. Qed.

(** C2 as stated fails: a release date in the year 999 is read, and the
    release year of its record is 999, which is not an integer of four
    digits. *)
Lemma year_of_three_digits :
  (load_data (disk (Table early_music))).1 = Returned 1%nat
  ∧ objects (load_data (disk (Table early_music))).2 !! 1%nat = Some early_music_loaded
  ∧ ¬ four_digit_years early_music_loaded.
Proof.
  split; [vm_compute; reflexivity|]. split; [vm_compute; reflexivity|].
  unfold four_digit_years. intros H. apply Forall_cons in H as [(d & Hd & _ & Hy) _].
  vm_compute in Hd. injection Hd as <-. simpl in Hy. lia.
Qed.

(** C4, as the code has it: the loader stops the run with the not-found
    message when the path does not exist, and with the loading-error message
    when the file cannot be read or has no Release Date column; in these
    cases no dataset is returned and nothing of the page is drawn after the
    message. A readable file with a Release Date column is loaded, whatever
    other columns it has. *)
Theorem load_data_outcomes (w : world) :
  match files w !! file_path with
  | None =>
      load_data w = (Stopped, drawn w (error_box
        "Error: The data file 'songs_2000_2020_50k.csv' was not found."))
  | Some (Unreadable msg) =>
      load_data w = (Stopped, drawn w (error_box
        ("An error occurred while loading the data: " +:+ msg)))
  | Some (Table t) =>
      if decide ("Release Date" ∈ header t)
      then load_data w = (Returned (S (length (objects w))),
             allocated (allocated w (prepared (decimal_zeros w) (frame_of t)))
               (loaded (decimal_zeros w) (frame_of t)))
      else load_data w = (Stopped, drawn (allocated w (frame_of t)) (error_box
             "An error occurred while loading the data: 'Release Date'"))
  end
  ∧ ∀ G Y P w', load_data w = (Stopped, w') → explorer_run G Y P w = (Stopped, w').
Proof.
  split.
  - destruct (files w !! file_path) as [[t|msg]|] eqn:Hfile.
    + case_decide; [by apply load_data_table | by apply load_data_no_date].
    + by apply load_data_unreadable.
    + by apply load_data_not_found.
  - intros G Y P w' Hstop. unfold explorer_run. by apply bind_stop.
Qed.

Lemma load_data_outcomes_witness :
  explorer_run ["Pop"] (2000, 2020)%Z (50, 100)%Z (disk (Unreadable "no columns to parse"))
  = (Stopped, drawn (disk (Unreadable "no columns to parse")) (error_box
      "An error occurred while loading the data: no columns to parse")).
Proof.
  apply (proj2 (load_data_outcomes (disk (Unreadable "no columns to parse")))).
  vm_compute. reflexivity.
Defined.

(** C4 as stated fails: a file with only a title and a release date lacks
    required columns, and the loader returns a dataset for it. *)
Lemma load_contract_fails :
  ¬ required_columns ⊆ header titles_and_dates
  ∧ (∃ w', load_data (disk (Table titles_and_dates)) = (Returned 1%nat, w')
           ∧ ∃ ds, objects w' !! 1%nat = Some ds
                   ∧ columns ds = ["Title"; "Release Date"; "release_datetime"; "release_year"]
                   ∧ length (rows ds) = 1%nat)
  ∧ ¬ load_contract (disk (Table titles_and_dates)).
Proof.
  assert (Hmissing : ¬ required_columns ⊆ header titles_and_dates).
  { intros H. assert (Hin : "Artist" ∈ required_columns)
      by (apply list_elem_of_In; simpl; tauto).
    apply H, list_elem_of_In in Hin. simpl in Hin. intuition discriminate. }
  assert (Hload : load_data (disk (Table titles_and_dates))
                  = (Returned 1%nat, (load_data (disk (Table titles_and_dates))).2)).
  { vm_compute. reflexivity. }
  split_and!; [done| |].
  - eexists. split; [exact Hload|]. eexists. split_and!.
    + vm_compute. reflexivity.
    + reflexivity.
    + reflexivity.
  - unfold load_contract.
    replace (files (disk (Table titles_and_dates)) !! file_path)
      with (Some (Table titles_and_dates)) by (vm_compute; reflexivity).
    intros H. destruct (H Hmissing) as (w' & msg & Hstop & _).
    rewrite Hload in Hstop. discriminate.
Qed.

(** ** Grouping *)

Section grouping.

Lemma group_keys_NoDup s : NoDup (group_keys s).
Proof.
  unfold group_keys. rewrite merge_sort_Permutation. apply NoDup_remove_dups.
Qed.

Lemma elem_of_group_keys s v : v ∈ group_keys s ↔ v ∈ s ∧ v ≠ VNaN.
Proof.
  unfold group_keys.
  rewrite merge_sort_Permutation, elem_of_remove_dups, list_elem_of_filter. tauto.
Qed.

Lemma groupby_Ok df c :
  c ∈ columns df →
  groupby df c =
    Ok ((λ k, (k, filter (λ r, cell c r = k) (rows df)))
          <$> group_keys (cell c <$> rows df)).
Proof. intros Hc. unfold groupby, getitem. by rewrite decide_True. Qed.

Lemma indicator_sum (x : value) ks :
  NoDup ks →
  sum_list ((λ k, if decide (x = k) then 1 else 0) <$> ks) =
    if decide (x ∈ ks) then 1 else 0.
Proof.
  induction 1 as [|k ks Hk _ IH]; [done|].
  rewrite fmap_cons. cbn [sum_list_with id]. rewrite IH.
  destruct (decide (x = k)) as [->|Hne].
  - rewrite decide_False by done. rewrite decide_True by left. done.
  - destruct (decide (x ∈ ks)).
    + rewrite decide_True by (by right). done.
    + rewrite decide_False; [done|]. by intros [?|?]%elem_of_cons.
Qed.

Lemma group_sizes_sum (key : row → value) (l : list row) ks :
  NoDup ks → Forall (λ r, key r ∈ ks) l →
  sum_list ((λ k, length (filter (λ r, key r = k) l)) <$> ks) = length l.
Proof.
  intros Hks. induction 1 as [|r l Hr _ IH].
  - induction ks as [|k ks IHks]; [done|].
    rewrite fmap_cons. cbn [sum_list_with]. apply NoDup_cons in Hks as [_ Hks]. auto.
  - assert (Hsplit : ∀ ks',
      sum_list ((λ k, length (filter (λ r0, key r0 = k) (r :: l))) <$> ks') =
      sum_list ((λ k, if decide (key r = k) then 1 else 0) <$> ks')
      + sum_list ((λ k, length (filter (λ r0, key r0 = k) l)) <$> ks')).
    { induction ks' as [|k ks' IHks]; [done|].
      rewrite !fmap_cons. cbn [sum_list_with id]. rewrite IHks, filter_cons.
      destruct (decide (key r = k)); simpl; lia. }
    rewrite Hsplit, IH, indicator_sum by done.
    rewrite decide_True by done. simpl. lia.
Qed.

Lemma count_row_cells (k v : value) :
  cell "release_year" ({[ "release_year" := k; "song_count" := v ]} : row) = k
  ∧ cell "song_count" ({[ "release_year" := k; "song_count" := v ]} : row) = v.
Proof.
  unfold cell. rewrite lookup_insert_eq, lookup_insert_ne by done.
  by rewrite lookup_singleton_eq.
Qed.

End grouping.

(** C6: for a dataset whose records all have an integer release year, the
    counts by year have one row per distinct year present, each with the
    number of records of that year, and the counts add up to the number of
    records. *)
Theorem songs_per_year_total (df : DataFrame) :
  years_known df →
  ∃ out,
    data_songs_per_year df = Ok out
    ∧ column_total "song_count" out = Z.of_nat (len df)
    ∧ NoDup (cell "release_year" <$> rows out)
    ∧ (∀ v, v ∈ cell "release_year" <$> rows out ↔ v ∈ cell "release_year" <$> rows df)
    ∧ Forall (λ r, ∃ y, cell "release_year" r = VInt y
                       ∧ cell "song_count" r = VInt (Z.of_nat (songs_in_year df y)))
        (rows out).
Proof.
  intros [Hcol Hyears]. unfold data_songs_per_year.
  rewrite groupby_Ok by done. eexists. split; [reflexivity|].
  set (ks := group_keys (cell "release_year" <$> rows df)).
  assert (Hks : ∀ v, v ∈ ks ↔ v ∈ cell "release_year" <$> rows df).
  { intros v. unfold ks. rewrite elem_of_group_keys. split; [tauto|].
    intros Hv. split; [done|]. apply list_elem_of_fmap in Hv as (r & -> & Hr).
    rewrite Forall_forall in Hyears. destruct (Hyears r Hr) as [y Hy].
    unfold cell. by rewrite Hy. }
  unfold reset_index, size_of_groups. simpl. rewrite <-!list_fmap_compose.
  split_and!.
  - unfold len. rewrite <-(group_sizes_sum (cell "release_year") (rows df) ks).
    + unfold column_total. simpl. clear Hks. induction ks as [|k ks IH]; [done|].
      rewrite !fmap_cons. cbn [foldr sum_list_with]. rewrite IH. simpl.
      rewrite (proj2 (count_row_cells _ _)). lia.
    + apply group_keys_NoDup.
    + apply Forall_forall. intros r Hr. apply Hks, list_elem_of_fmap. eauto.
  - erewrite list_fmap_ext.
    + rewrite list_fmap_id. apply group_keys_NoDup.
    + intros ? k _. simpl. apply count_row_cells.
  - intros v. rewrite <-Hks. erewrite list_fmap_ext.
    + by rewrite list_fmap_id.
    + intros ? k _. simpl. apply count_row_cells.
  - apply Forall_fmap, Forall_forall. intros k Hk. simpl.
    apply Hks, list_elem_of_fmap in Hk as (r & -> & Hr).
    rewrite Forall_forall in Hyears. destruct (Hyears r Hr) as [y Hy].
    exists y. unfold songs_in_year.
    replace (cell "release_year" r) with (VInt y) by (unfold cell; by rewrite Hy).
    apply count_row_cells.
Qed.

Lemma songs_per_year_total_witness :
  ∃ out,
    data_songs_per_year example_dataset = Ok out
    ∧ column_total "song_count" out = 2%Z
    ∧ NoDup (cell "release_year" <$> rows out)
    ∧ (∀ v, v ∈ cell "release_year" <$> rows out
            ↔ v ∈ cell "release_year" <$> rows example_dataset)
    ∧ Forall (λ r, ∃ y, cell "release_year" r = VInt y
                       ∧ cell "song_count" r = VInt (Z.of_nat (songs_in_year example_dataset y)))
        (rows out).
Proof. apply (songs_per_year_total example_dataset). dataset. Defined.

(** ** Rounding to float64 *)

Section float64.

Import Float64.
Local Open Scope Z_scope.

Lemma pow_pos_gt0 p : 0 < Z.pow_pos 2 p.
Proof. rewrite Z.pow_pos_fold. apply Z.pow_pos_nonneg; lia. Qed.

Lemma scale2_le e (p q : Q) : (p <= q)%Q → (scale2 e p <= scale2 e q)%Q.
Proof.
  destruct p as [a b], q as [c d]. unfold Qle. destruct e as [|k|k]; simpl; [done|..].
  - pose proof (pow_pos_gt0 k). nia.
  - rewrite !Pos2Z.inj_mul. pose proof (Pos2Z.is_pos (2 ^ k)). nia.
Qed.

Lemma scale2_eq e (p q : Q) : (p == q)%Q → (scale2 e p == scale2 e q)%Q.
Proof.
  intros H. apply Qle_antisym; apply scale2_le; rewrite H; apply Qle_refl.
Qed.

Lemma scale2_back e (q : Q) : (scale2 (- e) (scale2 e q) == q)%Q.
Proof.
  destruct q as [a b]. unfold Qeq. destruct e as [|k|k]; simpl; [done|..].
  - rewrite Pos2Z.inj_mul, Pos2Z.inj_pow, Z.pow_pos_fold. lia.
  - rewrite Pos2Z.inj_mul, Pos2Z.inj_pow, Z.pow_pos_fold. lia.
Qed.

Lemma scale2_int e (k : Z) : 0 ≤ e → scale2 e (inject_Z k) = inject_Z (k * 2 ^ e).
Proof.
  destruct e as [|p|p]; simpl; intros He.
  - by rewrite Z.mul_1_r.
  - done.
  - lia.
Qed.

Lemma rne_ge (q : Q) (k : Z) : (inject_Z k <= q)%Q → k ≤ rne q.
Proof.
  destruct q as [n d]. unfold Qle, rne. simpl. intros H.
  assert (k ≤ n / Zpos d) by (apply Z.div_le_lower_bound; lia).
  destruct (2 * (n mod Zpos d) ?= Zpos d); [destruct (Z.even _)|..]; lia.
Qed.

Lemma rne_le (q : Q) (k : Z) : (q <= inject_Z k)%Q → rne q ≤ k.
Proof.
  destruct q as [n d]. unfold Qle, rne. simpl. intros H.
  pose proof (Z.div_mod n (Zpos d) ltac:(lia)) as Hdm.
  pose proof (Z.mod_pos_bound n (Zpos d) ltac:(lia)) as Hm.
  destruct (Z.compare_spec (2 * (n mod Zpos d)) (Zpos d));
    [destruct (Z.even _)|..]; nia.
Qed.


Lemma ilog2_le (q : Q) :
  Qnum q ≠ 0 → 0 ≤ ilog2 q → 2 ^ ilog2 q * Zpos (Qden q) ≤ Z.abs (Qnum q).
Proof.
  destruct q as [n d]. unfold ilog2. cbn [Qnum Qden]. intros Hn.
  assert (Hpos : 0 < Z.abs n) by lia.
  pose proof (Z.log2_spec _ Hpos) as [Hn1 Hn2].
  pose proof (Z.log2_spec (Zpos d) ltac:(lia)) as [Hd1 Hd2].
  pose proof (Z.log2_nonneg (Z.abs n)). pose proof (Z.log2_nonneg (Zpos d)).
  set (ln := Z.log2 (Z.abs n)) in *. set (ld := Z.log2 (Zpos d)) in *.
  destruct (Qle_bool 1 _) eqn:Htest.
  - apply Qle_bool_iff in Htest. intros He.
    destruct (ln - ld) as [|p|p] eqn:E; simpl in Htest; unfold Qle in Htest;
      cbn [Qnum Qden] in Htest; [lia| |lia].
    rewrite Pos2Z.inj_mul, Pos2Z.inj_pow in Htest. lia.
  - intros He.
    assert (2 ^ (ln - ld - 1) * 2 ^ Z.succ ld = 2 ^ ln) as Hpow.
    { rewrite <-Z.pow_add_r by lia. f_equal. lia. }
    assert (0 < 2 ^ (ln - ld - 1)) by (apply Z.pow_pos_nonneg; lia).
    nia.
Qed.

Lemma nearest_grid (q : Q) (k m : Z) :
  Qnum q ≠ 0 →
  (scale2 (52 - Z.max (ilog2 q) (-1022)) (inject_Z k) == inject_Z m)%Q →
  ((inject_Z k <= q)%Q → (inject_Z k <= nearest q)%Q)
  ∧ ((q <= inject_Z k)%Q → (nearest q <= inject_Z k)%Q).
Proof.
  intros Hq Hgrid. unfold nearest. rewrite (proj2 (Z.eqb_neq _ _) Hq).
  set (e := Z.max (ilog2 q) (-1022)) in *.
  assert (Hk : (scale2 (e - 52) (inject_Z m) == inject_Z k)%Q).
  { rewrite <-(scale2_eq _ _ _ Hgrid).
    replace (e - 52) with (- (52 - e)) by lia. apply scale2_back. }
  split; intros H; rewrite <-Hk; apply scale2_le; rewrite <-Zle_Qle.
  - apply rne_ge. rewrite <-Hgrid. by apply scale2_le.
  - apply rne_le. rewrite <-Hgrid. by apply scale2_le.
Qed.

Lemma nearest_between (q : Q) (k : Z) :
  Z.abs k ≤ 2 ^ 53 →
  ((inject_Z k <= q)%Q → (inject_Z k <= nearest q)%Q)
  ∧ ((q <= inject_Z k)%Q → (nearest q <= inject_Z k)%Q).
Proof.
  intros Hk. destruct (decide (Qnum q = 0)) as [H0|Hq].
  { unfold nearest. rewrite H0. simpl.
    assert (q == 0)%Q as Hz by (unfold Qeq; simpl; lia).
    rewrite Hz. done. }
  set (e := Z.max (ilog2 q) (-1022)).
  destruct (decide (e ≤ 52)) as [He|He].
  { apply (nearest_grid q k (k * 2 ^ (52 - e))); [done|].
    fold e. rewrite scale2_int by lia. reflexivity. }
  assert (Hee : e = ilog2 q) by lia.
  pose proof (ilog2_le q Hq ltac:(lia)) as Hlow. rewrite <-Hee in Hlow.
  assert (Hpow : 2 ^ 53 ≤ 2 ^ e) by (apply Z.pow_le_mono_r; lia).
  assert (Hgrid : ∀ s : Z, (scale2 (52 - e) (inject_Z (s * 2 ^ e)) == inject_Z (s * 2 ^ 52))%Q).
  { intros s. destruct (52 - e) as [|p|p] eqn:E; [lia|lia|].
    unfold Qeq. cbn [scale2 inject_Z Qnum Qden]. rewrite Pos2Z.inj_mul, Pos2Z.inj_pow.
    replace (Zpos p) with (e - 52) by lia.
    replace (2 ^ e) with (2 ^ 52 * 2 ^ (e - 52)) by (rewrite <-Z.pow_add_r by lia; f_equal; lia).
    lia. }
  destruct (nearest_grid q (1 * 2 ^ e) _ Hq (Hgrid 1)) as [Hp1 Hp2].
  destruct (nearest_grid q (-1 * 2 ^ e) _ Hq (Hgrid (-1))) as [Hm1 Hm2].
  assert (Hsign : (inject_Z (2 ^ e) <= q)%Q ∨ (q <= inject_Z (- 2 ^ e))%Q).
  { destruct q as [n d]. unfold Qle. simpl in *. lia. }
  rewrite !Z.mul_1_l in *. replace (-1 * 2 ^ e) with (- 2 ^ e) in * by lia.
  destruct Hsign as [Hs|Hs].
  - specialize (Hp1 Hs). split; intros H.
    + eapply Qle_trans; [|exact Hp1]. rewrite <-Zle_Qle. lia.
    + assert (k = 2 ^ e) as ->.
      { assert (inject_Z (2 ^ e) <= inject_Z k)%Q as Hle by (eapply Qle_trans; eassumption).
        rewrite <-Zle_Qle in Hle. lia. }
      by apply Hp2.
  - specialize (Hm2 Hs). split; intros H.
    + assert (k = - 2 ^ e) as ->.
      { assert (inject_Z k <= inject_Z (- 2 ^ e))%Q as Hle by (eapply Qle_trans; eassumption).
        rewrite <-Zle_Qle in Hle. lia. }
      by apply Hm1.
    + eapply Qle_trans; [exact Hm2|]. rewrite <-Zle_Qle. lia.
Qed.

Lemma round_between (q : Q) (k : Z) :
  Z.abs k ≤ 2 ^ 53 →
  ((inject_Z k <= q)%Q → (inject_Z k <= round q)%Q)
  ∧ ((q <= inject_Z k)%Q → (round q <= inject_Z k)%Q).
Proof.
  intros Hk. unfold round. rewrite Qred_correct.
  destruct (nearest_between (Qred q) k Hk) as [H1 H2].
  split; intros H; [apply H1 | apply H2]; by rewrite Qred_correct.
Qed.

Lemma round_proper (p q : Q) : (p == q)%Q → round p = round q.
Proof. intros H. unfold round. by rewrite (Qred_complete _ _ H). Qed.

Lemma round_int (q : Q) (k : Z) :
  Z.abs k ≤ 2 ^ 53 → (q == inject_Z k)%Q → round q = inject_Z k.
Proof.
  intros Hk Hq. rewrite (round_proper _ _ Hq).
  destruct (round_between (inject_Z k) k Hk) as [H1 H2].
  assert (Heq : (round (inject_Z k) == inject_Z k)%Q)
    by (apply Qle_antisym; [apply H2 | apply H1]; apply Qle_refl).
  unfold round in *. rewrite Qred_correct in Heq. rewrite (Qred_complete _ _ Heq).
  apply Qcanon.Qred_identity. simpl. apply Z.gcd_1_r.
Qed.

End float64.

(** ** Means *)

Section means.

Lemma minimum_le (zs : list Z) z : z ∈ zs → (minimum zs ≤ z)%Z.
Proof.
  unfold minimum. generalize (hd 0%Z zs) as z0.
  induction zs as [|x zs IH]; intros z0; [by intros ?%elem_of_nil|].
  intros [->|Hz]%elem_of_cons; simpl; [lia|]. specialize (IH z0 Hz). lia.
Qed.

Lemma maximum_ge (zs : list Z) z : z ∈ zs → (z ≤ maximum zs)%Z.
Proof.
  unfold maximum. generalize (hd 0%Z zs) as z0.
  induction zs as [|x zs IH]; intros z0; [by intros ?%elem_of_nil|].
  intros [->|Hz]%elem_of_cons; simpl; [lia|]. specialize (IH z0 Hz). lia.
Qed.

Lemma minimum_elem (zs : list Z) : zs ≠ [] → minimum zs ∈ zs.
Proof.
  destruct zs as [|z0 zs]; [done|]. intros _. unfold minimum. simpl hd.
  assert (H : ∀ l : list Z, foldr Z.min z0 l = z0 ∨ foldr Z.min z0 l ∈ l).
  { induction l as [|x l [IH|IH]]; simpl; [by left|..].
    - rewrite IH. destruct (Z.min_spec x z0) as [[_ ->]|[_ ->]]; [right; left | by left].
    - destruct (Z.min_spec x (foldr Z.min z0 l)) as [[_ ->]|[_ ->]];
        right; [left | by right]. }
  destruct (H (z0 :: zs)) as [->| ?]; [left | done].
Qed.

Lemma maximum_elem (zs : list Z) : zs ≠ [] → maximum zs ∈ zs.
Proof.
  destruct zs as [|z0 zs]; [done|]. intros _. unfold maximum. simpl hd.
  assert (H : ∀ l : list Z, foldr Z.max z0 l = z0 ∨ foldr Z.max z0 l ∈ l).
  { induction l as [|x l [IH|IH]]; simpl; [by left|..].
    - rewrite IH. destruct (Z.max_spec x z0) as [[_ ->]|[_ ->]]; [by left | right; left].
    - destruct (Z.max_spec x (foldr Z.max z0 l)) as [[_ ->]|[_ ->]];
        right; [by right | left]. }
  destruct (H (z0 :: zs)) as [->| ?]; [left | done].
Qed.

Lemma sum_between (a b : Z) (zs : list Z) :
  Forall (λ z, a ≤ z ≤ b)%Z zs →
  (a * Z.of_nat (length zs) ≤ foldr Z.add 0 zs ≤ b * Z.of_nat (length zs))%Z.
Proof. induction 1; simpl; lia. Qed.

Lemma magnitude_nonneg (zs : list Z) : (0 ≤ magnitude zs)%Z.
Proof. induction zs; simpl; lia. Qed.

Lemma magnitude_elem (zs : list Z) z : z ∈ zs → (Z.abs z ≤ magnitude zs)%Z.
Proof.
  induction 1 as [z zs|z x zs _ IH]; simpl; pose proof (magnitude_nonneg zs); lia.
Qed.

Lemma magnitude_sum (zs : list Z) : (Z.abs (foldr Z.add 0 zs) ≤ magnitude zs)%Z.
Proof. induction zs; simpl; lia. Qed.

(** The exact mean lies between the least and the greatest. *)
Lemma mean_between (zs : list Z) :
  zs ≠ [] →
  (inject_Z (minimum zs)
   <= inject_Z (foldr Z.add 0%Z zs) / inject_Z (Z.of_nat (length zs))
   <= inject_Z (maximum zs))%Q.
Proof.
  intros Hne.
  assert (Hlen : (0 < inject_Z (Z.of_nat (length zs)))%Q).
  { rewrite <-(Zlt_Qlt 0). destruct zs; [done|]. simpl. lia. }
  assert (Hsum : (minimum zs * Z.of_nat (length zs) ≤ foldr Z.add 0 zs
                  ≤ maximum zs * Z.of_nat (length zs))%Z).
  { apply sum_between, Forall_forall. intros z Hz.
    split; [by apply minimum_le | by apply maximum_ge]. }
  split.
  - apply Qle_shift_div_l; [done|].
    rewrite <-inject_Z_mult, <-Zle_Qle. lia.
  - apply Qle_shift_div_r; [done|].
    rewrite <-inject_Z_mult, <-Zle_Qle. lia.
Qed.

(** While the integers added so far stay within [2^53], Kahan's sum is
    their sum and the compensation is zero. *)
Lemma kahan_ints (zs : list Z) (s : Z) :
  (Z.abs s + magnitude zs ≤ 2 ^ 53)%Z →
  foldl kahan_step (inject_Z s, 0%Q) (Float64.of_int <$> zs)
  = (inject_Z (s + foldr Z.add 0%Z zs), 0%Q).
Proof.
  revert s. induction zs as [|z zs IH]; intros s Hs.
  { simpl. by rewrite Z.add_0_r. }
  simpl in Hs. pose proof (magnitude_nonneg zs).
  rewrite fmap_cons. cbn [foldl]. unfold kahan_step at 2. cbn [fst snd].
  assert (Hz : Float64.of_int z = inject_Z z)
    by (apply round_int; [lia | reflexivity]).
  assert (Hy : Float64.sub (inject_Z z) 0 = inject_Z z).
  { apply round_int; [lia|]. unfold Qminus. by rewrite Qplus_0_r. }
  assert (Ht : Float64.add (inject_Z s) (inject_Z z) = inject_Z (s + z)).
  { apply round_int; [lia|]. by rewrite inject_Z_plus. }
  assert (Hd : Float64.sub (inject_Z (s + z)) (inject_Z s) = inject_Z z).
  { apply round_int; [lia|]. rewrite inject_Z_plus. ring. }
  assert (Hc : Float64.sub (inject_Z z) (inject_Z z) = 0%Q).
  { apply (round_int _ 0); [lia|]. ring. }
  rewrite Hz, Hy, Ht, Hd, Hc, IH by lia. do 2 f_equal. simpl. lia.
Qed.

Lemma kahan_sum_ints (zs : list Z) :
  (magnitude zs ≤ 2 ^ 53)%Z →
  kahan_sum (Float64.of_int <$> zs) = inject_Z (foldr Z.add 0%Z zs).
Proof.
  intros Hzs. unfold kahan_sum.
  change (0%Q, 0%Q) with (inject_Z 0, 0%Q). by rewrite kahan_ints.
Qed.

(** Within these bounds the mean that the code computes is the exact mean,
    rounded once. *)
Lemma mean_of_ints_exact (zs : list Z) :
  zs ≠ [] →
  (Z.of_nat (length zs) ≤ 2 ^ 53)%Z → (magnitude zs ≤ 2 ^ 53)%Z →
  mean_of_ints zs
  = VFloat (Float64.round (inject_Z (foldr Z.add 0%Z zs)
                           / inject_Z (Z.of_nat (length zs)))).
Proof.
  intros Hne Hlen Hmag. unfold mean_of_ints, mean_of.
  destruct (Float64.of_int <$> zs) eqn:E; [by destruct zs|]. rewrite <-E.
  rewrite kahan_sum_ints, length_fmap by done. unfold Float64.div.
  assert (Float64.of_int (Z.of_nat (length zs)) = inject_Z (Z.of_nat (length zs))) as ->
    by (apply round_int; [lia | reflexivity]).
  done.
Qed.

Lemma rounded_mean_between (zs : list Z) :
  zs ≠ [] → (magnitude zs ≤ 2 ^ 53)%Z →
  (inject_Z (minimum zs)
   <= Float64.round (inject_Z (foldr Z.add 0%Z zs) / inject_Z (Z.of_nat (length zs)))
   <= inject_Z (maximum zs))%Q.
Proof.
  intros Hne Hmag. destruct (mean_between zs Hne) as [Hlo Hhi].
  pose proof (magnitude_elem _ _ (minimum_elem zs Hne)).
  pose proof (magnitude_elem _ _ (maximum_elem zs Hne)).
  split.
  - by apply round_between; [lia|].
  - by apply round_between; [lia|].
Qed.

Lemma number_songs (rs : list row) :
  Forall song rs →
  traverse number (cell "Popularity" <$> rs)
  = Ok (Some ∘ Float64.of_int <$> popularities rs).
Proof.
  induction 1 as [|r rs (g & y & p & _ & _ & Hp) _ IH]; [done|].
  rewrite fmap_cons. cbn [traverse]. rewrite IH.
  unfold popularities. cbn [omap list_omap]. unfold cell. by rewrite Hp.
Qed.

Lemma mean_songs (rs : list row) :
  Forall song rs → mean (cell "Popularity" <$> rs) = Ok (mean_of_ints (popularities rs)).
Proof.
  intros Hrs. unfold mean. rewrite number_songs by done. simpl. f_equal.
  unfold mean_of_ints. f_equal.
  induction (popularities rs) as [|z zs IH]; [done|].
  rewrite !fmap_cons. cbn [omap list_omap]. simpl. by f_equal.
Qed.

Lemma popularities_songs (rs : list row) :
  Forall song rs → length (popularities rs) = length rs.
Proof.
  induction 1 as [|r rs (g & y & p & _ & _ & Hp) _ IH]; [done|].
  unfold popularities in *. cbn [omap list_omap]. unfold cell at 1. rewrite Hp.
  simpl. by rewrite IH.
Qed.

Lemma mean_row_cells (k v : value) :
  cell "Genre" ({[ "Genre" := k; "Popularity" := v ]} : row) = k
  ∧ cell "Popularity" ({[ "Genre" := k; "Popularity" := v ]} : row) = v.
Proof.
  unfold cell. rewrite lookup_insert_eq, lookup_insert_ne by done.
  by rewrite lookup_singleton_eq.
Qed.

Lemma avg_popularity_genre_Ok df :
  Dataset df →
  avg_popularity_genre df =
    Ok {| columns := ["Genre"; "Popularity"];
          rows := (λ k, {[ "Genre" := k;
                           "Popularity" := mean_of_ints
                             (popularities (filter (λ r, cell "Genre" r = k) (rows df))) ]})
                  <$> group_keys (cell "Genre" <$> rows df) |}.
Proof.
  intros (Hg & _ & Hp & Hsongs). unfold avg_popularity_genre.
  rewrite groupby_Ok by done. simpl. unfold mean_of_groups.
  rewrite decide_True by done. simpl.
  erewrite (traverse_total _
    (λ kr, (kr.1, mean_of_ints (popularities kr.2)))).
  - simpl. unfold reset_index. f_equal. f_equal. by rewrite <-!list_fmap_compose.
  - apply Forall_fmap, Forall_forall. intros k _. simpl.
    rewrite mean_songs; [done|]. by apply Forall_filtered.
Qed.

Lemma popularity_of_present df g :
  Forall song (rows df) → VStr g ∈ cell "Genre" <$> rows df → popularity_of df g ≠ [].
Proof.
  intros Hsongs Hg. unfold popularity_of. intros Hnil.
  apply (f_equal length) in Hnil. rewrite popularities_songs in Hnil
    by (by apply Forall_filtered).
  apply list_elem_of_fmap in Hg as (r & Hr & Hin).
  assert (r ∈ filter (λ r, cell "Genre" r = VStr g) (rows df)) as Hf
    by (by apply list_elem_of_filter).
  destruct (filter _ (rows df)); [by apply elem_of_nil in Hf | done].
Qed.

End means.

(** C8, as the code has it: on a Dataset, for a genre whose popularities,
    taken in absolute value, add up to at most [2^53] and whose records are
    at most [2^53], the average popularity is the arithmetic mean of the
    popularities of the records of that genre, rounded to float64, and it
    lies between the least and the greatest of them. *)
Theorem mean_popularity_bounds (df : DataFrame) (g : string) :
  Dataset df →
  VStr g ∈ cell "Genre" <$> rows df →
  (Z.of_nat (length (popularity_of df g)) ≤ 2 ^ 53)%Z →
  (magnitude (popularity_of df g) ≤ 2 ^ 53)%Z →
  ∃ out m,
    avg_popularity_genre df = Ok out
    ∧ (∃ r, r ∈ rows out ∧ cell "Genre" r = VStr g)
    ∧ (∀ r, r ∈ rows out → cell "Genre" r = VStr g → cell "Popularity" r = VFloat m)
    ∧ m = Float64.round (inject_Z (foldr Z.add 0%Z (popularity_of df g))
                         / inject_Z (Z.of_nat (length (popularity_of df g))))
    ∧ (inject_Z (minimum (popularity_of df g)) <= m
       <= inject_Z (maximum (popularity_of df g)))%Q.
Proof.
  intros Hds Hg Hlen Hmag. rewrite avg_popularity_genre_Ok by done.
  destruct Hds as (_ & _ & _ & Hsongs).
  pose proof (popularity_of_present df g Hsongs Hg) as Hne.
  eexists. eexists. split; [reflexivity|]. simpl.
  split_and!.
  - eexists. split.
    + apply list_elem_of_fmap. exists (VStr g). split; [reflexivity|].
      apply elem_of_group_keys. by split.
    + apply mean_row_cells.
  - intros r (k & -> & _)%list_elem_of_fmap.
    rewrite (proj1 (mean_row_cells _ _)), (proj2 (mean_row_cells _ _)).
    intros ->. by apply mean_of_ints_exact.
  - reflexivity.
  - by apply rounded_mean_between.
  - by apply rounded_mean_between.
Qed.

Lemma mean_popularity_bounds_witness :
  ∃ out m,
    avg_popularity_genre example_dataset = Ok out
    ∧ (∃ r, r ∈ rows out ∧ cell "Genre" r = VStr "Pop")
    ∧ (∀ r, r ∈ rows out → cell "Genre" r = VStr "Pop" → cell "Popularity" r = VFloat m)
    ∧ m = Float64.round (inject_Z (foldr Z.add 0%Z (popularity_of example_dataset "Pop"))
                         / inject_Z (Z.of_nat (length (popularity_of example_dataset "Pop"))))
    ∧ (inject_Z (minimum (popularity_of example_dataset "Pop")) <= m
       <= inject_Z (maximum (popularity_of example_dataset "Pop")))%Q.
Proof.
  apply (mean_popularity_bounds example_dataset "Pop"); [dataset| | |].
  - apply list_elem_of_In. vm_compute. tauto.
  - vm_compute. discriminate.
  - vm_compute. discriminate.
Defined.

(** C8 as stated fails: two records of one genre with popularity
    [2^53 + 1], which is not a float64, have the mean [2^53], which is
    below the least popularity of the genre. *)
Lemma mean_below_minimum :
  Dataset two_loud_songs
  ∧ avg_popularity_genre two_loud_songs
    = Ok {| columns := ["Genre"; "Popularity"];
            rows := [ {[ "Genre" := VStr "Pop";
                         "Popularity" := VFloat 9007199254740992 ]} ] |}
  ∧ minimum (popularity_of two_loud_songs "Pop") = 9007199254740993%Z
  ∧ ¬ mean_within_bounds two_loud_songs "Pop".
Proof.
  assert (Havg : avg_popularity_genre two_loud_songs
    = Ok {| columns := ["Genre"; "Popularity"];
            rows := [ {[ "Genre" := VStr "Pop";
                         "Popularity" := VFloat 9007199254740992 ]} ] |})
    by (vm_compute; reflexivity).
  split_and!; [dataset | exact Havg | reflexivity |].
  intros H.
  destruct (H _ ({[ "Genre" := VStr "Pop";
                    "Popularity" := VFloat 9007199254740992 ]} : row)
              9007199254740992%Q Havg) as [Hlo _].
  - left.
  - apply mean_row_cells.
  - apply mean_row_cells.
  - vm_compute in Hlo. by apply Hlo.
Qed.

(** ** Sampling *)

Section sampling.

Lemma draw_rows_length (n : nat) (pool : list row) rng :
  (n ≤ length pool)%nat → length (draw_rows n pool rng) = n.
Proof.
  revert pool rng. induction n as [|n IH]; intros pool rng Hn; [done|].
  cbn [draw_rows].
  destruct (lookup_lt_is_Some_2 pool (hd 0 rng `mod` length pool)) as [r Hr].
  { apply Nat.mod_upper_bound. lia. }
  rewrite Hr. simpl. rewrite IH; [done|].
  rewrite length_delete by eauto. lia.
Qed.

Lemma draw_rows_submseteq n (pool : list row) rng : draw_rows n pool rng ⊆+ pool.
Proof.
  revert pool rng. induction n as [|n IH]; intros pool rng; cbn [draw_rows].
  { apply submseteq_nil_l. }
  destruct (pool !! (hd 0 rng `mod` length pool)) as [r|] eqn:Hr.
  - transitivity (r :: delete (hd 0 rng `mod` length pool) pool).
    + apply submseteq_skip, IH.
    + apply Permutation_submseteq. symmetry. by apply delete_Permutation.
  - apply submseteq_nil_l.
Qed.

End sampling.

(** C9: a sample larger than the dataset raises the library's
    larger-than-population error, so the scatter plot's sample of 5000 does
    on a smaller dataset; a sample that is returned has exactly the rows
    asked for, all of them rows of the dataset, none drawn twice. *)
Theorem sample_bounds (df : DataFrame) (n : nat) (rng : list nat) :
  ((len df < n)%nat →
   sample df n rng
   = Err (ValueError "Cannot take a larger sample than population when 'replace=False'"))
  ∧ ((len df < 5000)%nat →
     df_sample df rng
     = Err (ValueError "Cannot take a larger sample than population when 'replace=False'"))
  ∧ (∀ out, sample df n rng = Ok out →
            len out = n ∧ rows out ⊆+ rows df ∧ columns out = columns df).
Proof.
  unfold df_sample, sample. split_and!.
  - intros Hn. by rewrite decide_True.
  - intros Hn. by rewrite decide_True.
  - intros out. case_decide; [done|]. intros [= <-]. unfold len in *. simpl.
    split_and!; [apply draw_rows_length; lia | apply draw_rows_submseteq | done].
Qed.

Lemma sample_bounds_witness :
  sample example_dataset 3 [0; 0; 0]
  = Err (ValueError "Cannot take a larger sample than population when 'replace=False'").
Proof.
  apply (proj1 (sample_bounds example_dataset 3 [0; 0; 0])). vm_compute. lia.
Defined.

(** * Further properties of the script *)

(** ** More on the filter *)

Section filter_more.

Lemma Forall_select (Q : row → Prop) (rs : list row) mask :
  Forall Q rs → Forall Q (select rs mask).
Proof.
  rewrite !Forall_forall. intros HQ r Hr. apply HQ.
  by apply (sublist_subseteq _ _ (select_sublist rs mask)).
Qed.

Lemma filtered_df_keeps_Dataset df G Y P view :
  filtered_df df G Y P = Ok view → Dataset df → Dataset view.
Proof.
  intros (_ & _ & _ & mask & _ & ->)%filtered_df_Ok (Hg & Hy & Hp & Hsongs).
  split_and!; try done. by apply Forall_select.
Qed.

Lemma filter_ext_in {A} (Q1 Q2 : A → Prop)
    `{∀ x, Decision (Q1 x)} `{∀ x, Decision (Q2 x)} (l : list A) :
  Forall (λ x, Q1 x ↔ Q2 x) l → filter Q1 l = filter Q2 l.
Proof.
  induction 1 as [|x l Hx _ IH]; [done|]. rewrite !filter_cons, IH.
  destruct (decide (Q1 x)), (decide (Q2 x)); tauto.
Qed.

End filter_more.

(** X1: the view of a Dataset is a Dataset again, with an integer release year
    in every record: whatever applies to the loaded table applies to every
    filtered view of it. *)
Theorem filter_keeps_invariants (df view : DataFrame) (G : list string) (Y P : Z * Z) :
  filtered_df df G Y P = Ok view →
  (Dataset df → Dataset view) ∧ (years_known df → years_known view).
Proof.
  intros Hview. split; [by apply (filtered_df_keeps_Dataset df G Y P)|].
  apply filtered_df_Ok in Hview as (_ & _ & _ & mask & _ & ->).
  intros [Hcol Hyears]. split; [done|]. by apply Forall_select.
Qed.

Lemma filter_keeps_invariants_witness :
  Dataset {| columns := columns example_dataset;
             rows := filter (retained ["Pop"] (2000, 2020)%Z (50, 100)%Z)
                       (rows example_dataset) |}.
Proof.
  apply (filter_keeps_invariants example_dataset _ ["Pop"] (2000, 2020)%Z (50, 100)%Z).
  - vm_compute. reflexivity.
  - dataset.
Defined.

(** X2: two filters in a row keep the rows that pass both, in either order. *)
Theorem filter_twice (df : DataFrame) (G1 G2 : list string) (Y1 P1 Y2 P2 : Z * Z) :
  Dataset df →
  ∃ v1 v2 both,
    filtered_df df G1 Y1 P1 = Ok v1 ∧ filtered_df v1 G2 Y2 P2 = Ok both
    ∧ filtered_df df G2 Y2 P2 = Ok v2 ∧ filtered_df v2 G1 Y1 P1 = Ok both
    ∧ columns both = columns df
    ∧ rows both = filter (λ r, retained G1 Y1 P1 r ∧ retained G2 Y2 P2 r) (rows df).
Proof.
  intros Hds.
  pose proof (filtered_df_Dataset G1 Y1 P1 df Hds) as H1.
  pose proof (filtered_df_Dataset G2 Y2 P2 df Hds) as H2.
  pose proof (filtered_df_keeps_Dataset _ _ _ _ _ H1 Hds) as Hds1.
  pose proof (filtered_df_keeps_Dataset _ _ _ _ _ H2 Hds) as Hds2.
  exists {| columns := columns df; rows := filter (retained G1 Y1 P1) (rows df) |},
         {| columns := columns df; rows := filter (retained G2 Y2 P2) (rows df) |},
         {| columns := columns df;
            rows := filter (λ r, retained G1 Y1 P1 r ∧ retained G2 Y2 P2 r) (rows df) |}.
  split_and!; try done.
  - rewrite (filtered_df_Dataset G2 Y2 P2 _ Hds1). simpl.
    rewrite list_filter_filter. do 2 f_equal. apply list_filter_iff. tauto.
  - rewrite (filtered_df_Dataset G1 Y1 P1 _ Hds2). simpl.
    by rewrite list_filter_filter.
Qed.

Lemma filter_twice_witness :
  ∃ v1 v2 both,
    filtered_df example_dataset ["Pop"; "Rock"] (2000, 2012)%Z (0, 100)%Z = Ok v1
    ∧ filtered_df v1 ["Pop"] (2000, 2020)%Z (50, 100)%Z = Ok both
    ∧ filtered_df example_dataset ["Pop"] (2000, 2020)%Z (50, 100)%Z = Ok v2
    ∧ filtered_df v2 ["Pop"; "Rock"] (2000, 2012)%Z (0, 100)%Z = Ok both
    ∧ columns both = columns example_dataset
    ∧ rows both = filter (λ r, retained ["Pop"; "Rock"] (2000, 2012)%Z (0, 100)%Z r
                             ∧ retained ["Pop"] (2000, 2020)%Z (50, 100)%Z r)
                    (rows example_dataset).
Proof. apply (filter_twice example_dataset). dataset. Defined.

(** X3: a selection that contains every genre present, with a year range that
    spans every year present, filters by popularity alone; if the
    popularity range spans every popularity too, the view has all the rows. *)
Theorem filter_by_popularity_alone (df : DataFrame) (G : list string) (Y P : Z * Z) :
  Dataset df →
  (∀ (r : row) g, r ∈ rows df → r !! "Genre" = Some (VStr g) → g ∈ G) →
  (∀ (r : row) y, r ∈ rows df → r !! "release_year" = Some (VInt y) → Y.1 ≤ y ≤ Y.2)%Z →
  ∃ view,
    filtered_df df G Y P = Ok view
    ∧ rows view = filter (popular P) (rows df)
    ∧ (Forall (popular P) (rows df) → view = df).
Proof.
  intros Hds HG HY. rewrite filtered_df_Dataset by done. eexists. split; [done|].
  destruct Hds as (_ & _ & _ & Hsongs). simpl.
  assert (Heq : filter (retained G Y P) (rows df) = filter (popular P) (rows df)).
  { apply filter_ext_in, Forall_forall. intros r Hr.
    rewrite Forall_forall in Hsongs. destruct (Hsongs r Hr) as (g & y & p & Hg & Hy & Hp).
    unfold retained, popular. rewrite Hg, Hy, Hp.
    specialize (HG r g Hr Hg). specialize (HY r y Hr Hy). tauto. }
  split; [done|]. intros Hall. rewrite Heq.
  destruct df as [cs rs]. simpl in *. f_equal.
  clear -Hall. induction Hall as [|r rs Hr _ IH]; [done|].
  rewrite filter_cons, decide_True by done. by f_equal.
Qed.

Lemma filter_by_popularity_alone_witness :
  ∃ view,
    filtered_df example_dataset ["Pop"; "Rock"] (2010, 2015)%Z (50, 100)%Z = Ok view
    ∧ rows view = filter (popular (50, 100)%Z) (rows example_dataset)
    ∧ (Forall (popular (50, 100)%Z) (rows example_dataset) → view = example_dataset).
Proof.
  apply (filter_by_popularity_alone example_dataset ["Pop"; "Rock"]
           (2010, 2015)%Z (50, 100)%Z); [dataset | |].
  - intros r g Hr Hg. apply list_elem_of_In in Hr. simpl in Hr.
    destruct Hr as [<-|[<-|[]]]; vm_compute in Hg; injection Hg as <-;
      apply list_elem_of_In; simpl; tauto.
  - intros r y Hr Hy. apply list_elem_of_In in Hr. simpl in Hr.
    destruct Hr as [<-|[<-|[]]]; vm_compute in Hy; injection Hy as <-; simpl; lia.
Defined.

(** X4: records with a missing genre, release year or popularity do not make
    the filter fail, and none of them is in the view: every retained record
    has a selected genre label and both numbers. *)
Theorem filter_drops_missing (df : DataFrame) (G : list string) (Y P : Z * Z) :
  "Genre" ∈ columns df → "release_year" ∈ columns df → "Popularity" ∈ columns df →
  Forall (λ r, number_or_missing (cell "release_year" r)
               ∧ number_or_missing (cell "Popularity" r)) (rows df) →
  ∃ view,
    filtered_df df G Y P = Ok view
    ∧ Forall (λ r, (∃ g, cell "Genre" r = VStr g ∧ g ∈ G)
                   ∧ isna (cell "release_year" r) = false
                   ∧ isna (cell "Popularity" r) = false) (rows view).
Proof.
  intros Hg Hy Hp Hcells.
  assert (Hkeep : Forall (λ r, ∃ b, keep G Y P r = Ok b
      ∧ (b = true → (∃ g, cell "Genre" r = VStr g ∧ g ∈ G)
                    ∧ isna (cell "release_year" r) = false
                    ∧ isna (cell "Popularity" r) = false)) (rows df)).
  { eapply Forall_impl; [exact Hcells|]. intros r [Hyr Hpr]. unfold keep.
    destruct (cell "release_year" r) as [| | | |]; try done;
      destruct (cell "Popularity" r) as [| | | |]; try done; simpl;
      (eexists; split; [reflexivity|]); intros Hb;
      rewrite !andb_true_iff in Hb; destruct Hb as [[[[H1 H2] H3] H4] H5];
      try discriminate; (split; [|done]);
      destruct (cell "Genre" r) as [g| | | |]; try discriminate;
      exists g; (split; [done|]); by apply bool_decide_eq_true in H1. }
  assert (Hmask : ∃ mask, Forall2 (λ r b, keep G Y P r = Ok b) (rows df) mask).
  { clear -Hkeep. induction Hkeep as [|r rs (b & Hb & _) _ (mask & IH)].
    - exists []. constructor.
    - exists (b :: mask). by constructor. }
  destruct Hmask as [mask Hmask].
  exists {| columns := columns df; rows := select (rows df) mask |}. split.
  { apply filtered_df_Ok. split_and!; try done. by exists mask. }
  simpl. clear -Hkeep Hmask.
  induction Hmask as [|r b rs mask Hb _ IH]; [constructor|].
  apply Forall_cons in Hkeep as [(b' & Hb' & Hr) Hkeep]. simpl.
  rewrite Hb in Hb'. injection Hb' as <-.
  destruct b; [constructor|]; auto.
Qed.

Lemma filter_drops_missing_witness :
  ∃ view,
    filtered_df {| columns := ["Genre"; "release_year"; "Popularity"];
                   rows := [ {[ "Genre" := VStr "Pop"; "release_year" := VInt 2010 ]};
                             {[ "Genre" := VStr "Pop"; "release_year" := VInt 2011;
                                "Popularity" := VInt 70 ]} ] |}
      ["Pop"] (2000, 2020)%Z (50, 100)%Z = Ok view
    ∧ Forall (λ r, (∃ g, cell "Genre" r = VStr g ∧ g ∈ ["Pop"])
                   ∧ isna (cell "release_year" r) = false
                   ∧ isna (cell "Popularity" r) = false) (rows view).
Proof.
  apply filter_drops_missing;
    [apply list_elem_of_In; simpl; tauto .. |].
  repeat (constructor; [vm_compute; tauto|]). constructor.
Defined.

(** ** The explorer page from end to end *)

Section explorer.

Lemma derived_columns_other c cs :
  c ≠ "release_datetime" → c ≠ "release_year" →
  c ∈ derived_columns cs ↔ c ∈ cs.
Proof.
  intros H1 H2. unfold derived_columns.
  repeat case_decide; rewrite ?elem_of_app, ?list_elem_of_singleton; tauto.
Qed.

Lemma getitem_columns_Ok df cols :
  cols ⊆ columns df →
  getitem_columns df cols =
    Ok {| columns := cols;
          rows := (λ r : row, filter (λ kv, kv.1 ∈ cols) r) <$> rows df |}.
Proof.
  intros Hsub. unfold getitem_columns.
  assert (filter (λ c, c ∉ columns df) cols = []) as ->; [|done].
  assert (Hall : Forall (λ c, c ∈ columns df) cols)
    by (apply Forall_forall; intros c Hc; by apply Hsub).
  clear Hsub. induction Hall as [|c cs Hc _ IH]; [done|].
  rewrite filter_cons, decide_False by tauto. done.
Qed.

Lemma unique_NoDup (seen l : list string) :
  NoDup l → (∀ c, c ∈ l → c ∉ seen) → unique seen l = l.
Proof.
  intros Hl. revert seen. induction Hl as [|c l Hc _ IH]; intros seen Hseen; [done|].
  simpl. rewrite decide_False by (apply Hseen; left). f_equal. apply IH.
  intros c' Hc' [->|Hin]%elem_of_cons; [done|]. apply (Hseen c'); [by right | done].
Qed.

(** Some labels of the key are columns and some are not: the KeyError names
    the ones that are not. *)
Lemma getitem_columns_Err df cols c c' :
  NoDup cols → c ∈ cols → c ∈ columns df → c' ∈ cols → c' ∉ columns df →
  getitem_columns df cols
  = Err (KeyError (repr_labels (filter (λ c, c ∉ columns df) cols) +:+ " not in index")).
Proof.
  intros Hnd Hc Hcol Hc' Hcol'. unfold getitem_columns.
  rewrite bool_decide_false.
  2: { intros Hnil. assert (c' ∈ filter (λ c, c ∉ columns df) cols) as Hin
         by (by apply list_elem_of_filter).
       rewrite Hnil in Hin. by apply elem_of_nil in Hin. }
  rewrite bool_decide_false.
  2: { intros Hall. rewrite <-Hall in Hc. by apply list_elem_of_filter in Hc as [? _]. }
  rewrite unique_NoDup; [done | | intros ? _; apply not_elem_of_nil].
  by apply NoDup_filter.
Qed.

Lemma display_cols_NoDup : NoDup display_cols.
Proof. apply (bool_decide_unpack (NoDup display_cols)). vm_compute. exact I. Qed.

Lemma song_explorer_run w df ds G Y P :
  objects w !! df = Some ds → Dataset ds → G ≠ [] →
  let view := {| columns := columns ds; rows := filter (retained G Y P) (rows ds) |} in
  let counted := drawn (allocated w view)
    (subheader ("Found " +:+ pretty (len view) +:+ " songs matching your criteria:")) in
  song_explorer df G Y P w =
    match getitem_columns view display_cols with
    | Ok shown =>
        (Returned (), drawn (drawn counted (dataframe shown)) (title
           " Enjoy Exploring the Music Data!🎵, Its fun right?! Thanks for Wasting your valuable time in here"))
    | Err e => (Raised e, counted)
    end.
Proof.
  intros Hdf Hds HG view counted. unfold song_explorer.
  erewrite bind_run;
    [|rewrite (filter_logic_run _ _ _ _ ds) by done;
      by rewrite filtered_df_Dataset by done].
  erewrite bind_run; [|apply deref_run, allocated_lookup].
  erewrite bind_run; [|reflexivity].
  fold view. fold counted.
  destruct (getitem_columns view display_cols) as [shown|e] eqn:Hshown.
  - erewrite bind_run; [|by apply eval_Ok].
    erewrite bind_run; [|reflexivity]. reflexivity.
  - erewrite bind_raise; [reflexivity|]. done.
Qed.

End explorer.

(** X5: on a Dataset that has the six display columns, the explorer draws the
    count, then the table, then its closing title: the table has the display
    columns in their fixed order and one row per retained record, in order,
    with that record's cells under those columns and nothing else; the count
    is the number of rows of the table; the dataset object is as before. *)
Theorem explorer_shows_the_view (w : world) (df : loc) (ds : DataFrame)
    (G : list string) (Y P : Z * Z) :
  objects w !! df = Some ds → Dataset ds → display_cols ⊆ columns ds → G ≠ [] →
  ∃ shown closing w',
    song_explorer df G Y P w = (Returned (), w')
    ∧ page w' = page w ++
        [subheader ("Found " +:+ pretty (len shown) +:+ " songs matching your criteria:");
         dataframe shown; title closing]
    ∧ columns shown = display_cols
    ∧ Forall2 (λ r s : row, ∀ c, s !! c = if decide (c ∈ display_cols) then r !! c else None)
        (filter (retained G Y P) (rows ds)) (rows shown)
    ∧ objects w' !! df = Some ds.
Proof.
  intros Hdf Hds Hcols HG.
  rewrite (song_explorer_run w df ds) by done. cbn zeta.
  rewrite getitem_columns_Ok by done.
  exists {| columns := display_cols;
            rows := (λ r : row, filter (λ kv, kv.1 ∈ display_cols) r)
                    <$> filter (retained G Y P) (rows ds) |}.
  eexists _, _. split; [reflexivity|]. split_and!.
  - simpl. rewrite <-!app_assoc. simpl. unfold len. simpl. by rewrite length_fmap.
  - done.
  - simpl. apply Forall2_fmap_r, Forall_Forall2_diag, Forall_forall.
    intros r _ c. rewrite map_lookup_filter.
    destruct (r !! c) as [v|]; simpl; [|by case_decide].
    case_decide; [by rewrite option_guard_True | by rewrite option_guard_False].
  - simpl. by apply lookup_app_l_Some.
Qed.

Lemma explorer_shows_the_view_witness :
  ∃ shown closing w',
    song_explorer 0 ["Pop"] (2000, 2020)%Z (50, 100)%Z (holding example_songs)
    = (Returned (), w')
    ∧ page w' = [] ++
        [subheader ("Found " +:+ pretty (len shown) +:+ " songs matching your criteria:");
         dataframe shown; title closing]
    ∧ columns shown = display_cols
    ∧ Forall2 (λ r s : row, ∀ c, s !! c = if decide (c ∈ display_cols) then r !! c else None)
        (filter (retained ["Pop"] (2000, 2020)%Z (50, 100)%Z) (rows example_songs))
        (rows shown)
    ∧ objects w' !! 0%nat = Some example_songs.
Proof.
  apply (explorer_shows_the_view (holding example_songs) 0%nat example_songs);
    [reflexivity | dataset | | discriminate].
  intros c Hc. apply list_elem_of_In in Hc. apply list_elem_of_In.
  simpl in *. intuition.
Defined.

(** X6: on a Dataset that lacks a display column, the explorer draws the count
    and then raises the KeyError of pandas that lists the display columns
    the dataset lacks, in the order of the display: no table is drawn. For
    the example, which has no Artist column, the message is
    [['Artist'] not in index]. *)
Theorem explorer_missing_display_column (w : world) (df : loc) (ds : DataFrame)
    (G : list string) (Y P : Z * Z) :
  objects w !! df = Some ds → Dataset ds → ¬ display_cols ⊆ columns ds → G ≠ [] →
  ∃ w',
    song_explorer df G Y P w
    = (Raised (KeyError (repr_labels (filter (λ c, c ∉ columns ds) display_cols)
                         +:+ " not in index")), w')
    ∧ page w' = page w ++
        [subheader ("Found " +:+ pretty (length (filter (retained G Y P) (rows ds)))
                    +:+ " songs matching your criteria:")]
    ∧ objects w' !! df = Some ds.
Proof.
  intros Hdf Hds Hcols HG.
  rewrite (song_explorer_run w df ds) by done. cbn zeta.
  assert (Hmissing : ∃ c, c ∈ display_cols ∧ c ∉ columns ds).
  { destruct (decide (Forall (λ c, c ∈ columns ds) display_cols)) as [Hall|Hex].
    - exfalso. apply Hcols. intros c Hc. rewrite Forall_forall in Hall. auto.
    - apply not_Forall_Exists in Hex; [|apply _].
      apply Exists_exists in Hex as (c & Hc & Hn). eauto. }
  destruct Hmissing as (c' & Hc' & Hn).
  rewrite (getitem_columns_Err _ display_cols "Genre" c').
  - eexists. split; [reflexivity|]. split; [done|].
    simpl. by apply lookup_app_l_Some.
  - apply display_cols_NoDup.
  - apply list_elem_of_In. simpl. tauto.
  - apply Hds.
  - done.
  - done.
Qed.

Lemma explorer_missing_display_column_witness :
  ∃ w',
    song_explorer 0 ["Pop"] (2000, 2020)%Z (50, 100)%Z (holding example_dataset)
    = (Raised (KeyError (repr_labels (filter (λ c, c ∉ columns example_dataset)
                                        display_cols)
                         +:+ " not in index")), w')
    ∧ page w' = [] ++
        [subheader ("Found " +:+ pretty (length (filter (retained ["Pop"] (2000, 2020)%Z
                                                   (50, 100)%Z) (rows example_dataset)))
                    +:+ " songs matching your criteria:")]
    ∧ objects w' !! 0%nat = Some example_dataset.
Proof.
  apply (explorer_missing_display_column (holding example_dataset) 0%nat);
    [reflexivity | dataset | | discriminate].
  intros Hsub. assert (Hin : "Artist" ∈ display_cols)
    by (apply list_elem_of_In; simpl; tauto).
  apply Hsub, list_elem_of_In in Hin. simpl in Hin. intuition discriminate.
Defined.

Example missing_artist :
  (song_explorer 0 ["Pop"] (2000, 2020)%Z (50, 100)%Z (holding example_dataset)).1
  = Raised (KeyError "['Artist'] not in index").
Proof. vm_compute. reflexivity. Qed.

(** ** More on the loader *)

Section loader_more.

Lemma derived_columns_prefix cs : cs `prefix_of` derived_columns cs.
Proof.
  unfold derived_columns. repeat case_decide; try done.
  - by apply prefix_app_r.
  - by apply prefix_app_r.
  - by apply prefix_app_r, prefix_app_r.
Qed.

Lemma derived_columns_elem c cs :
  c ∈ derived_columns cs ↔ c ∈ cs ∨ c = "release_datetime" ∨ c = "release_year".
Proof.
  unfold derived_columns.
  repeat case_decide; rewrite ?elem_of_app, ?list_elem_of_singleton;
    split; intros; destruct_or?; subst; auto;
    rewrite ?elem_of_app, ?list_elem_of_singleton in *; tauto.
Qed.

Lemma loaded_records zeros (recs : list (gmap string field)) :
  ∃ kept, kept `sublist_of` recs
    ∧ Forall2 (λ (rec : gmap string field) (r : row),
                 ∀ c, c ≠ "release_datetime" → c ≠ "release_year" →
                      r !! c = value_of <$> rec !! c)
        kept (omap (loaded_row zeros)
                ((λ rec : gmap string field, value_of <$> rec) <$> recs)).
Proof.
  induction recs as [|rec recs (kept & Hsub & Hkept)].
  - exists []. split; [done | constructor].
  - rewrite fmap_cons. cbn [omap list_omap].
    destruct (loaded_row zeros (value_of <$> rec)) as [r|] eqn:Hr.
    + exists (rec :: kept). split; [by apply sublist_skip|]. constructor; [|done].
      apply loaded_row_Some in Hr as (d & _ & ->). intros c H1 H2.
      by rewrite !lookup_insert_ne, lookup_fmap by done.
    + exists kept. split; [by apply sublist_cons | done].
Qed.

End loader_more.

(** X8: whenever the loader returns, it has drawn nothing and left the files and
    the objects there were as they are; the dataset has the header's columns
    first, in their order, and besides them only the two derived columns;
    its records are records of the file, in the file's order, each with the
    cells it has in the file under every column but the two derived ones. *)
Theorem loader_keeps_records (w : world) (df : loc) (w' : world) :
  load_data w = (Returned df, w') →
  ∃ t ds kept,
    files w !! file_path = Some (Table t)
    ∧ objects w' !! df = Some ds
    ∧ page w' = page w ∧ files w' = files w
    ∧ (∀ l d, objects w !! l = Some d → objects w' !! l = Some d)
    ∧ header t `prefix_of` columns ds
    ∧ (∀ c, c ∈ columns ds ↔ c ∈ header t ∨ c = "release_datetime" ∨ c = "release_year")
    ∧ kept `sublist_of` records t
    ∧ Forall2 (λ (rec : gmap string field) (r : row),
                 ∀ c, c ≠ "release_datetime" → c ≠ "release_year" →
                      r !! c = value_of <$> rec !! c) kept (rows ds).
Proof.
  intros Hload.
  destruct (files w !! file_path) as [[t|msg]|] eqn:Hfile.
  2: { by rewrite (load_data_unreadable _ _ Hfile) in Hload. }
  2: { by rewrite (load_data_not_found _ Hfile) in Hload. }
  destruct (decide ("Release Date" ∈ header t)) as [Hcol|Hcol].
  2: { by rewrite (load_data_no_date _ _ Hfile Hcol) in Hload. }
  rewrite (load_data_table _ _ Hfile Hcol) in Hload. injection Hload as <- <-.
  destruct (loaded_records (decimal_zeros w) (records t)) as (kept & Hsub & Hkept).
  exists t, (loaded (decimal_zeros w) (frame_of t)), kept. split_and!; try done.
  - apply loaded_lookup.
  - intros l d Hl. simpl. by do 2 apply lookup_app_l_Some.
  - apply derived_columns_prefix.
  - intros c. apply derived_columns_elem.
Qed.

Lemma loader_keeps_records_witness :
  ∃ t ds kept,
    files (disk (Table example_file)) !! file_path = Some (Table t)
    ∧ objects (load_data (disk (Table example_file))).2 !! 1%nat = Some ds
    ∧ page (load_data (disk (Table example_file))).2 = page (disk (Table example_file))
    ∧ files (load_data (disk (Table example_file))).2 = files (disk (Table example_file))
    ∧ (∀ l d, objects (disk (Table example_file)) !! l = Some d →
              objects (load_data (disk (Table example_file))).2 !! l = Some d)
    ∧ header t `prefix_of` columns ds
    ∧ (∀ c, c ∈ columns ds ↔ c ∈ header t ∨ c = "release_datetime" ∨ c = "release_year")
    ∧ kept `sublist_of` records t
    ∧ Forall2 (λ (rec : gmap string field) (r : row),
                 ∀ c, c ≠ "release_datetime" → c ≠ "release_year" →
                      r !! c = value_of <$> rec !! c) kept (rows ds).
Proof.
  apply (loader_keeps_records (disk (Table example_file)) 1%nat). vm_compute. reflexivity.
Defined.

(** X9: a file that has a Release Date column and no record whose date parses is
    loaded as a dataset without records: the loader returns, and draws no
    message. *)
Theorem loader_drops_everything (w : world) (t : table) :
  files w !! file_path = Some (Table t) →
  "Release Date" ∈ header t →
  Forall (λ rec : gmap string field,
            release_date (decimal_zeros w) (value_of <$> rec) = None) (records t) →
  ∃ df w' ds,
    load_data w = (Returned df, w')
    ∧ objects w' !! df = Some ds
    ∧ rows ds = [] ∧ page w' = page w.
Proof.
  intros Hfile Hcol Hnone. rewrite (load_data_table _ _ Hfile Hcol).
  eexists _, _, _. split; [reflexivity|]. split; [apply loaded_lookup|].
  split; [|done]. rewrite loaded_frame. simpl.
  induction Hnone as [|rec recs Hrec _ IH]; [done|].
  rewrite fmap_cons. cbn [omap list_omap]. unfold with_year at 1. by rewrite Hrec.
Qed.

Lemma loader_drops_everything_witness :
  ∃ df w' ds,
    load_data (disk (Table unparsed_dates)) = (Returned df, w')
    ∧ objects w' !! df = Some ds
    ∧ rows ds = [] ∧ page w' = [].
Proof.
  apply (loader_drops_everything (disk (Table unparsed_dates)) unparsed_dates);
    [reflexivity | |].
  - apply list_elem_of_In. simpl. tauto.
  - repeat (constructor; [vm_compute; reflexivity|]). constructor.
Defined.

(** ** The bounds of the year slider *)

Section bounds.

Lemma bind_of_Ok {A B} (a : A) (f : A → res B) : Ok a ≫= f = f a.
Proof. reflexivity. Qed.

Lemma least_ints a b : least (VInt a) (VInt b) = VInt (Z.min a b).
Proof.
  unfold least, value_leb. destruct (Z.leb_spec a b); f_equal; lia.
Qed.

Lemma greatest_ints a b : greatest (VInt a) (VInt b) = VInt (Z.max a b).
Proof.
  unfold greatest, value_leb. destruct (Z.leb_spec b a); f_equal; lia.
Qed.

Lemma reduce_ints pick (f : Z → Z → Z) y ys :
  (∀ a b, pick (VInt a) (VInt b) = VInt (f a b)) →
  reduce pick (VInt <$> y :: ys) = Ok (VInt (foldl f y ys)).
Proof.
  intros Hpick. unfold reduce.
  assert (Hpresent : ∀ zs : list Z,
            filter (λ v, v ≠ VNaN) (VInt <$> zs) = VInt <$> zs).
  { induction zs as [|z zs IH]; [done|].
    rewrite fmap_cons, filter_cons, decide_True by done. by rewrite IH. }
  rewrite Hpresent.
  assert (Hnum : ∀ zs : list Z, forallb is_number (VInt <$> zs) = true)
    by (induction zs; simpl; auto).
  rewrite Hnum. simpl. f_equal.
  revert y. induction ys as [|z ys IH]; intros y; [done|]. simpl.
  by rewrite Hpick, IH.
Qed.

Lemma foldl_min_spec y ys :
  foldl Z.min y ys ∈ y :: ys ∧ Forall (λ z, foldl Z.min y ys ≤ z)%Z (y :: ys).
Proof.
  revert y. induction ys as [|z ys IH]; intros y; simpl.
  - split; [left | by repeat constructor].
  - destruct (IH (Z.min y z)) as [Hin Hle].
    apply Forall_cons in Hle as [Hle0 Hle]. split.
    + apply elem_of_cons in Hin as [Hin|Hin]; [|by do 2 right].
      rewrite Hin. destruct (Z.min_spec y z) as [[_ ->]|[_ ->]]; [left | right; left].
    + repeat constructor; [lia | lia | done].
Qed.

Lemma foldl_max_spec y ys :
  foldl Z.max y ys ∈ y :: ys ∧ Forall (λ z, z ≤ foldl Z.max y ys)%Z (y :: ys).
Proof.
  revert y. induction ys as [|z ys IH]; intros y; simpl.
  - split; [left | by repeat constructor].
  - destruct (IH (Z.max y z)) as [Hin Hle].
    apply Forall_cons in Hle as [Hle0 Hle]. split.
    + apply elem_of_cons in Hin as [Hin|Hin]; [|by do 2 right].
      rewrite Hin. destruct (Z.max_spec y z) as [[_ ->]|[_ ->]]; [right; left | left].
    + repeat constructor; [lia | lia | done].
Qed.

Lemma years_series (rs : list row) :
  Forall (λ r : row, ∃ y, r !! "release_year" = Some (VInt y)) rs →
  ∃ ys, cell "release_year" <$> rs = VInt <$> ys.
Proof.
  induction 1 as [|r rs [y Hy] _ [ys IH]].
  - by exists [].
  - exists (y :: ys). rewrite !fmap_cons, IH. unfold cell. by rewrite Hy.
Qed.

End bounds.

(** X10: on a dataset without records the bounds of the year slider raise
    ValueError: the minimum of an empty column is NaN and [int] does not
    convert it. On a dataset with records, each with an integer release
    year, the bounds are the least and the greatest year present, so the
    slider's default range leaves no record out. *)
Theorem year_bounds_span (df : DataFrame) :
  years_known df →
  (rows df = [] →
   year_bounds df = Err (ValueError "cannot convert float NaN to integer"))
  ∧ (rows df ≠ [] →
     ∃ lo hi, year_bounds df = Ok (lo, hi)
       ∧ VInt lo ∈ cell "release_year" <$> rows df
       ∧ VInt hi ∈ cell "release_year" <$> rows df
       ∧ ∀ (r : row) y, r ∈ rows df → r !! "release_year" = Some (VInt y) →
                        (lo ≤ y ≤ hi)%Z).
Proof.
  intros [Hcol Hyears]. unfold year_bounds, getitem. rewrite decide_True by done.
  split.
  - intros ->. reflexivity.
  - intros Hne. destruct (years_series _ Hyears) as [ys Hys].
    rewrite !bind_of_Ok, Hys. destruct ys as [|y ys].
    { destruct (rows df); [done | discriminate]. }
    unfold series_min, series_max.
    rewrite (reduce_ints _ _ _ _ least_ints), bind_of_Ok. cbn [py_int].
    destruct (foldl_min_spec y ys) as [Hmin_in Hmin].
    destruct (foldl_max_spec y ys) as [Hmax_in Hmax].
    exists (foldl Z.min y ys), (foldl Z.max y ys). split.
    { rewrite !bind_of_Ok, (reduce_ints _ _ _ _ greatest_ints). reflexivity. }
    split_and!.
    + apply list_elem_of_fmap. eauto.
    + apply list_elem_of_fmap. eauto.
    + intros r z Hr Hz.
      assert (Hin : VInt z ∈ cell "release_year" <$> rows df).
      { apply list_elem_of_fmap. exists r. split; [|done].
        unfold cell. by rewrite Hz. }
      rewrite Hys in Hin.
      apply list_elem_of_fmap in Hin as (z' & [= <-] & Hin).
      rewrite Forall_forall in Hmin, Hmax.
      specialize (Hmin z Hin). specialize (Hmax z Hin). lia.
Qed.

Lemma year_bounds_span_witness :
  year_bounds {| columns := columns example_dataset; rows := [] |}
  = Err (ValueError "cannot convert float NaN to integer").
Proof.
  apply (proj1 (year_bounds_span {| columns := columns example_dataset; rows := [] |}
                  ltac:(dataset))). reflexivity.
Defined.

(** ** Metrics and summaries *)

Section metrics.

Lemma remove_dups_length {A} `{EqDecision A} (l : list A) :
  (length (remove_dups l) ≤ length l)%nat.
Proof.
  induction l as [|x l IH]; [done|]. simpl. case_decide; simpl; lia.
Qed.

Lemma group_keys_length s : length (group_keys s) = nunique s.
Proof. unfold group_keys, nunique. by rewrite merge_sort_Permutation. Qed.

Lemma nunique_le s : (nunique s ≤ length s)%nat.
Proof.
  unfold nunique. etrans; [apply remove_dups_length|]. apply length_filter.
Qed.

Lemma value_leb_total a b : value_leb a b = true ∨ value_leb b a = true.
Proof.
  destruct a as [s|m|p|d|], b as [t|n|q|e|]; simpl; auto.
  - apply String.leb_total.
  - rewrite !Z.leb_le. lia.
  - rewrite !Qle_bool_iff. destruct (Qlt_le_dec (inject_Z m) q); auto using Qlt_le_weak.
  - rewrite !Qle_bool_iff. destruct (Qlt_le_dec p (inject_Z n)); auto using Qlt_le_weak.
  - rewrite !Qle_bool_iff. destruct (Qlt_le_dec p q); auto using Qlt_le_weak.
  - unfold Strptime.date_leb.
    rewrite !orb_true_iff, !andb_true_iff, !orb_true_iff, !andb_true_iff,
      !Z.ltb_lt, !Z.eqb_eq, !Z.leb_le. lia.
Qed.

Global Instance value_leb_Total : Total (λ a b, Is_true (value_leb a b)).
Proof.
  intros a b. rewrite !Is_true_true. apply value_leb_total.
Qed.

Lemma sorted_ints (zs : list Z) :
  Sorted (λ a b, Is_true (value_leb a b)) (VInt <$> zs) → Sorted Z.le zs.
Proof.
  induction zs as [|z zs IH]; [constructor|].
  rewrite fmap_cons. inversion 1 as [|? ? Hs Hhd]; subst.
  constructor; [by apply IH|].
  destruct zs as [|z' zs]; [constructor|].
  rewrite fmap_cons in Hhd. inversion Hhd as [|? ? Hle]; subst.
  constructor. simpl in Hle. apply Is_true_true in Hle. by apply Z.leb_le.
Qed.

Lemma sorted_strings (gs : list string) :
  Sorted (λ a b, Is_true (value_leb a b)) (VStr <$> gs) →
  Sorted (λ a b, String.leb a b = true) gs.
Proof.
  induction gs as [|g gs IH]; [constructor|].
  rewrite fmap_cons. inversion 1 as [|? ? Hs Hhd]; subst.
  constructor; [by apply IH|].
  destruct gs as [|g' gs]; [constructor|].
  rewrite fmap_cons in Hhd. inversion Hhd as [|? ? Hle]; subst.
  constructor. simpl in Hle. by apply Is_true_true in Hle.
Qed.

Lemma group_keys_Sorted s :
  Sorted (λ a b, Is_true (value_leb a b)) (group_keys s).
Proof. unfold group_keys. apply Sorted_merge_sort. apply _. Qed.

Lemma genre_series (rs : list row) :
  Forall song rs → ∃ gs, cell "Genre" <$> rs = VStr <$> gs.
Proof.
  induction 1 as [|r rs (g & y & p & Hg & _) _ [gs IH]].
  - by exists [].
  - exists (g :: gs). rewrite !fmap_cons, IH. unfold cell. by rewrite Hg.
Qed.

Lemma group_keys_ints (zs : list Z) : ∃ ks, group_keys (VInt <$> zs) = VInt <$> ks.
Proof.
  assert (Hall : Forall (λ v, ∃ z, v = VInt z) (group_keys (VInt <$> zs))).
  { apply Forall_forall. intros v [Hv _]%elem_of_group_keys.
    apply list_elem_of_fmap in Hv as (z & -> & _). eauto. }
  induction Hall as [|v vs [z ->] _ [ks ->]]; [by exists []|]. by exists (z :: ks).
Qed.

Lemma group_keys_strings (gs : list string) :
  ∃ ks, group_keys (VStr <$> gs) = VStr <$> ks.
Proof.
  assert (Hall : Forall (λ v, ∃ g, v = VStr g) (group_keys (VStr <$> gs))).
  { apply Forall_forall. intros v [Hv _]%elem_of_group_keys.
    apply list_elem_of_fmap in Hv as (g & -> & _). eauto. }
  induction Hall as [|v vs [g ->] _ [ks ->]]; [by exists []|]. by exists (g :: ks).
Qed.

End metrics.

(** X11: the Total Genres metric of the overview is the number of rows of the
    average popularity by genre; it is at most the number of records, and it
    is zero on a dataset without records only. *)
Theorem total_genres_agrees (df : DataFrame) :
  Dataset df →
  ∃ n out,
    total_genres df = Ok n
    ∧ avg_popularity_genre df = Ok out
    ∧ len out = n
    ∧ (n ≤ len df)%nat
    ∧ (n = 0%nat ↔ rows df = []).
Proof.
  intros Hds. rewrite avg_popularity_genre_Ok by done.
  destruct Hds as (Hg & _ & _ & Hsongs).
  unfold total_genres, getitem. rewrite decide_True by done.
  eexists _, _. split; [reflexivity|]. split; [reflexivity|]. split_and!.
  - unfold len. simpl. by rewrite length_fmap, group_keys_length.
  - etrans; [apply nunique_le|]. unfold len. by rewrite length_fmap.
  - split.
    + intros Hn. destruct (rows df) as [|r rs] eqn:Hrows; [done|]. exfalso.
      apply Forall_cons in Hsongs as [(g & y & p & Hgr & _) _].
      assert (Hin : VStr g ∈ group_keys (cell "Genre" <$> r :: rs)).
      { apply elem_of_group_keys. split; [|done]. rewrite fmap_cons.
        replace (cell "Genre" r) with (VStr g) by (unfold cell; by rewrite Hgr).
        left. }
      rewrite <-group_keys_length in Hn.
      destruct (group_keys (cell "Genre" <$> r :: rs)); [|done].
      by apply elem_of_nil in Hin.
    + by intros ->.
Qed.

Lemma total_genres_agrees_witness :
  ∃ n out,
    total_genres example_dataset = Ok n
    ∧ avg_popularity_genre example_dataset = Ok out
    ∧ len out = n
    ∧ (n ≤ len example_dataset)%nat
    ∧ (n = 0%nat ↔ rows example_dataset = []).
Proof. apply (total_genres_agrees example_dataset). dataset. Defined.

(** X12: the rows of the counts by year come in strictly ascending order of
    year, and the rows of the average popularity by genre in strictly
    ascending order of genre label. *)
Theorem summaries_are_sorted (df : DataFrame) :
  Dataset df →
  ∃ per_year per_genre ys gs,
    data_songs_per_year df = Ok per_year
    ∧ cell "release_year" <$> rows per_year = VInt <$> ys
    ∧ Sorted Z.lt ys
    ∧ avg_popularity_genre df = Ok per_genre
    ∧ cell "Genre" <$> rows per_genre = VStr <$> gs
    ∧ Sorted (λ a b, String.ltb a b = true) gs.
Proof.
  intros Hds. rewrite avg_popularity_genre_Ok by done.
  destruct Hds as (Hg & Hy & _ & Hsongs).
  unfold data_songs_per_year. rewrite groupby_Ok by done.
  destruct (years_series (rows df)) as [zs Hzs].
  { eapply Forall_impl; [done|]. intros r (g & y & p & _ & Hr & _). eauto. }
  destruct (genre_series (rows df) Hsongs) as [labels Hlabels].
  destruct (group_keys_ints zs) as [ys Hys].
  destruct (group_keys_strings labels) as [gs Hgs].
  pose proof (group_keys_Sorted (VInt <$> zs)) as Hsy.
  pose proof (group_keys_NoDup (VInt <$> zs)) as Hny.
  pose proof (group_keys_Sorted (VStr <$> labels)) as Hsg.
  pose proof (group_keys_NoDup (VStr <$> labels)) as Hng.
  rewrite Hys in Hsy, Hny. rewrite Hgs in Hsg, Hng.
  apply sorted_ints in Hsy. apply sorted_strings in Hsg.
  apply (NoDup_fmap_1 VInt) in Hny. apply (NoDup_fmap_1 VStr) in Hng.
  eexists _, _, ys, gs. split; [reflexivity|]. split_and!.
  - simpl. unfold size_of_groups. rewrite <-!list_fmap_compose, Hzs, Hys.
    rewrite <-list_fmap_compose. apply list_fmap_ext. intros ? k _. simpl.
    apply count_row_cells.
  - clear -Hsy Hny. induction Hsy as [|y ys Hs IH Hhd]; [constructor|].
    apply NoDup_cons in Hny as [Hy Hny]. constructor; [auto|].
    destruct Hhd as [|y' ys' Hle]; constructor.
    assert (y ≠ y') by (intros ->; apply Hy; left). lia.
  - reflexivity.
  - simpl. rewrite <-list_fmap_compose, Hlabels, Hgs.
    rewrite <-list_fmap_compose. apply list_fmap_ext. intros ? k _. simpl.
    apply mean_row_cells.
  - clear -Hsg Hng. induction Hsg as [|g gs Hs IH Hhd]; [constructor|].
    apply NoDup_cons in Hng as [Hg Hng]. constructor; [auto|].
    destruct Hhd as [|g' gs' Hle]; constructor.
    assert (g ≠ g') by (intros ->; apply Hg; left).
    unfold String.ltb. unfold String.leb in Hle.
    destruct (String.compare g g') eqn:Hc; try done.
    by apply String.compare_eq_iff in Hc.
Qed.

Lemma summaries_are_sorted_witness :
  ∃ per_year per_genre ys gs,
    data_songs_per_year example_dataset = Ok per_year
    ∧ cell "release_year" <$> rows per_year = VInt <$> ys
    ∧ Sorted Z.lt ys
    ∧ avg_popularity_genre example_dataset = Ok per_genre
    ∧ cell "Genre" <$> rows per_genre = VStr <$> gs
    ∧ Sorted (λ a b, String.ltb a b = true) gs.
Proof. apply (summaries_are_sorted example_dataset). dataset. Defined.

(** X14: a sample as large as the dataset is the dataset in another order:
    every record is drawn exactly as often as it occurs. A sample of no
    rows is empty. *)
Theorem sample_of_everything (df : DataFrame) (rng : list nat) :
  (∃ out, sample df (len df) rng = Ok out
          ∧ rows out ≡ₚ rows df ∧ columns out = columns df)
  ∧ sample df 0 rng = Ok {| columns := columns df; rows := [] |}.
Proof.
  unfold sample. split.
  - rewrite decide_False by lia. eexists. split; [reflexivity|]. split; [|done].
    simpl. apply submseteq_length_Permutation.
    + apply draw_rows_submseteq.
    + rewrite draw_rows_length; unfold len; lia.
  - rewrite decide_False by lia. reflexivity.
Qed.

(** ** Popularity trends by year and genre *)

Section trends.

Lemma group_keys2_NoDup s1 s2 : NoDup (group_keys2 s1 s2).
Proof.
  unfold group_keys2. rewrite merge_sort_Permutation. apply NoDup_remove_dups.
Qed.

Lemma elem_of_group_keys2 s1 s2 k :
  k ∈ group_keys2 s1 s2 ↔ k ∈ zip s1 s2 ∧ k.1 ≠ VNaN ∧ k.2 ≠ VNaN.
Proof.
  unfold group_keys2.
  rewrite merge_sort_Permutation, elem_of_remove_dups, list_elem_of_filter. tauto.
Qed.

Lemma group_keys2_length s1 s2 : (length (group_keys2 s1 s2) ≤ length s1)%nat.
Proof.
  unfold group_keys2. rewrite merge_sort_Permutation.
  etrans; [apply remove_dups_length|]. etrans; [apply length_filter|].
  rewrite length_zip. lia.
Qed.

Lemma elem_of_zip_fmap {A B C} (f : A → B) (g : A → C) (l : list A) x :
  x ∈ l → (f x, g x) ∈ zip (f <$> l) (g <$> l).
Proof.
  induction 1 as [x l|x z l _ IH]; rewrite !fmap_cons; simpl; [left | by right].
Qed.

Lemma trend_row_cells (k1 k2 v : value) :
  cell "release_year"
    ({[ "release_year" := k1; "Genre" := k2; "Popularity" := v ]} : row) = k1
  ∧ cell "Genre"
      ({[ "release_year" := k1; "Genre" := k2; "Popularity" := v ]} : row) = k2
  ∧ cell "Popularity"
      ({[ "release_year" := k1; "Genre" := k2; "Popularity" := v ]} : row) = v.
Proof.
  unfold cell. split_and!.
  - by rewrite lookup_insert_eq.
  - by rewrite lookup_insert_ne, lookup_insert_eq.
  - by rewrite !lookup_insert_ne, lookup_singleton_eq.
Qed.

Lemma data_pop_trends_Ok df :
  Dataset df →
  data_pop_trends df =
    Ok {| columns := ["release_year"; "Genre"; "Popularity"];
          rows := (λ k : value * value,
                     {[ "release_year" := k.1; "Genre" := k.2;
                        "Popularity" := mean_of_ints (popularities
                          (filter (λ r, cell "release_year" r = k.1 ∧ cell "Genre" r = k.2)
                             (rows df))) ]})
                  <$> group_keys2 (cell "release_year" <$> rows df)
                                  (cell "Genre" <$> rows df) |}.
Proof.
  intros (Hg & Hy & Hp & Hsongs). unfold data_pop_trends, groupby2, getitem.
  rewrite !decide_True by done. rewrite !bind_of_Ok.
  erewrite (traverse_total _ (λ kr, (kr.1, mean_of_ints (popularities kr.2)))).
  - rewrite bind_of_Ok. do 2 f_equal. by rewrite <-!list_fmap_compose.
  - apply Forall_fmap, Forall_forall. intros k _. simpl.
    rewrite mean_songs; [done|]. by apply Forall_filtered.
Qed.

End trends.

(** X15: on a Dataset, the popularity trends have one row for every pair of a
    year and a genre that some record has, and no two rows for one pair, so
    never more rows than there are records; for a pair whose popularities,
    taken in absolute value, add up to at most [2^53] and whose records are
    at most [2^53], the value is the arithmetic mean of the popularities of
    its records, rounded to float64, and lies between the least and the
    greatest of them. *)
Theorem pop_trends_bounds (df : DataFrame) (y : Z) (g : string) :
  Dataset df →
  (∃ r : row, r ∈ rows df ∧ r !! "release_year" = Some (VInt y)
              ∧ r !! "Genre" = Some (VStr g)) →
  ∃ out,
    data_pop_trends df = Ok out
    ∧ (∃ r, r ∈ rows out ∧ cell "release_year" r = VInt y ∧ cell "Genre" r = VStr g)
    ∧ NoDup ((λ r, (cell "release_year" r, cell "Genre" r)) <$> rows out)
    ∧ (len out ≤ len df)%nat
    ∧ ((Z.of_nat (length (popularity_in df y g)) ≤ 2 ^ 53)%Z →
       (magnitude (popularity_in df y g) ≤ 2 ^ 53)%Z →
       ∃ m,
         (∀ r, r ∈ rows out → cell "release_year" r = VInt y → cell "Genre" r = VStr g →
               cell "Popularity" r = VFloat m)
         ∧ m = Float64.round (inject_Z (foldr Z.add 0%Z (popularity_in df y g))
                              / inject_Z (Z.of_nat (length (popularity_in df y g))))
         ∧ (inject_Z (minimum (popularity_in df y g)) <= m
            <= inject_Z (maximum (popularity_in df y g)))%Q).
Proof.
  intros Hds (r0 & Hr0 & Hy0 & Hg0). rewrite data_pop_trends_Ok by done.
  destruct Hds as (_ & _ & _ & Hsongs).
  assert (Hcells : cell "release_year" r0 = VInt y ∧ cell "Genre" r0 = VStr g)
    by (unfold cell; by rewrite Hy0, Hg0).
  assert (Hne : popularity_in df y g ≠ []).
  { unfold popularity_in. intros Hnil.
    apply (f_equal length) in Hnil. rewrite popularities_songs in Hnil
      by (by apply Forall_filtered).
    assert (r0 ∈ filter (λ r, cell "release_year" r = VInt y ∧ cell "Genre" r = VStr g)
                   (rows df)) as Hf by (by apply list_elem_of_filter).
    destruct (filter _ (rows df)); [by apply elem_of_nil in Hf | done]. }
  assert (Hkey : (VInt y, VStr g) ∈ group_keys2 (cell "release_year" <$> rows df)
                                                (cell "Genre" <$> rows df)).
  { apply elem_of_group_keys2. split; [|done].
    destruct Hcells as [<- <-]. by apply elem_of_zip_fmap. }
  eexists. split; [reflexivity|]. simpl.
  split_and!.
  - eexists. split.
    + apply list_elem_of_fmap. exists (VInt y, VStr g). split; [reflexivity|done].
    + split; apply trend_row_cells.
  - rewrite <-list_fmap_compose. erewrite list_fmap_ext.
    + rewrite list_fmap_id. apply group_keys2_NoDup.
    + intros ? [k1 k2] _. simpl.
      destruct (trend_row_cells k1 k2 (mean_of_ints (popularities
        (filter (λ r, cell "release_year" r = k1 ∧ cell "Genre" r = k2) (rows df)))))
        as (-> & -> & _). done.
  - unfold len. simpl. rewrite length_fmap.
    etrans; [apply group_keys2_length|]. by rewrite length_fmap.
  - intros Hlen Hmag. eexists. split_and!.
    + intros r (k & -> & _)%list_elem_of_fmap.
      destruct (trend_row_cells k.1 k.2 (mean_of_ints (popularities
         (filter (λ r, cell "release_year" r = k.1 ∧ cell "Genre" r = k.2) (rows df)))))
        as (-> & -> & ->).
      intros -> ->. by apply mean_of_ints_exact.
    + reflexivity.
    + by apply rounded_mean_between.
    + by apply rounded_mean_between.
Qed.

Lemma pop_trends_bounds_witness :
  ∃ out,
    data_pop_trends example_dataset = Ok out
    ∧ (∃ r, r ∈ rows out ∧ cell "release_year" r = VInt 2015 ∧ cell "Genre" r = VStr "Rock")
    ∧ NoDup ((λ r, (cell "release_year" r, cell "Genre" r)) <$> rows out)
    ∧ (len out ≤ len example_dataset)%nat
    ∧ ((Z.of_nat (length (popularity_in example_dataset 2015 "Rock")) ≤ 2 ^ 53)%Z →
       (magnitude (popularity_in example_dataset 2015 "Rock") ≤ 2 ^ 53)%Z →
       ∃ m,
         (∀ r, r ∈ rows out → cell "release_year" r = VInt 2015 →
               cell "Genre" r = VStr "Rock" → cell "Popularity" r = VFloat m)
         ∧ m = Float64.round
                 (inject_Z (foldr Z.add 0%Z (popularity_in example_dataset 2015 "Rock"))
                  / inject_Z (Z.of_nat (length (popularity_in example_dataset 2015 "Rock"))))
         ∧ (inject_Z (minimum (popularity_in example_dataset 2015 "Rock")) <= m
            <= inject_Z (maximum (popularity_in example_dataset 2015 "Rock")))%Q).
Proof.
  apply (pop_trends_bounds example_dataset 2015 "Rock"); [dataset|].
  eexists. split; [apply list_elem_of_In; simpl; right; left; reflexivity|].
  split; vm_compute; reflexivity.
Defined.

Example pop_trends_example :
  data_pop_trends example_dataset =
    Ok {| columns := ["release_year"; "Genre"; "Popularity"];
          rows := [ {[ "release_year" := VInt 2010; "Genre" := VStr "Pop";
                       "Popularity" := VFloat 80 ]};
                    {[ "release_year" := VInt 2015; "Genre" := VStr "Rock";
                       "Popularity" := VFloat 40 ]} ] |}.
Proof. vm_compute. reflexivity. Qed.

(** ** The dates the loader reads *)

Section dates.

Variable zeros : list Z.

Local Open Scope Z_scope.

Lemma strptime_staged val :
  Strptime.strptime zeros val =
    match '(d, s) ← Strptime.re_d zeros (code_points val); after_day zeros d s with
    | (d, []) :: _ => if Strptime.valid_date d then Some d else None
    | _ => None
    end.
Proof. reflexivity. Qed.

(** Matching a group and then the dash, as one step of the matcher. *)
Lemma stage {X} (p : list (list Z * list Z)) (K : list Z → list Z → list X) :
  ('(a, s) ← p; '(_, s') ← Strptime.chr "-" s; K a s')
  = '(a, s') ← ('(a, s) ← p; '(_, s') ← Strptime.chr "-" s; [(a, s')]); K a s'.
Proof.
  induction p as [|[a s] p IH]; [done|].
  rewrite !bind_cons, bind_app, <-IH. f_equal.
  induction (Strptime.chr "-" s) as [|[b s'] l IHl]; [done|].
  rewrite !bind_cons. simpl. by rewrite IHl.
Qed.

(** Case analysis on a natural number below a bound. *)
Ltac by_cases n bound tac :=
  lazymatch bound with
  | O => exfalso; lia
  | S ?bound' =>
      destruct n as [|n]; [first [exfalso; lia | tac] | by_cases n bound' tac]
  end.

(** The text of a formatted date is ASCII, one code point for each
    character. *)
Lemma ord_digit_char (k : Z) : 0 ≤ k ≤ 9 → ord (digit_char k) = 48 + k.
Proof.
  intros Hk. rewrite <-(Z2Nat.id k) in * by lia.
  generalize dependent (Z.to_nat k). intros n Hn.
  by_cases n 10%nat ltac:(reflexivity).
Qed.

Lemma decode_ascii (l : list Z) : Forall (λ b, 0 ≤ b < 128) l → decode l = l.
Proof.
  induction 1 as [|b l Hb _ IH]; [done|].
  cbn [decode]. rewrite (proj2 (Z.ltb_lt b 128)) by lia. by rewrite IH.
Qed.

Lemma format_date_points y m dd :
  1 ≤ dd ≤ 31 → 1 ≤ m ≤ 12 → 1 ≤ y ≤ 9999 →
  code_points (format_date (Date y m dd))
  = two_points dd ++ 45 :: (two_points m ++ 45 ::
      (two_points (y / 100) ++ two_points (y `mod` 100))).
Proof.
  intros Hd Hm Hy. unfold code_points.
  assert (E : ord <$> list_ascii_of_string (format_date (Date y m dd))
    = [ord (digit_char (dd / 10)); ord (digit_char (dd `mod` 10)); 45;
       ord (digit_char (m / 10)); ord (digit_char (m `mod` 10)); 45;
       ord (digit_char (y / 100 / 10)); ord (digit_char ((y / 100) `mod` 10));
       ord (digit_char (y `mod` 100 / 10)); ord (digit_char ((y `mod` 100) `mod` 10))])
    by reflexivity.
  rewrite E, !ord_digit_char by (Z.to_euclidean_division_equations; lia).
  apply decode_ascii.
  repeat (constructor; [Z.to_euclidean_division_equations; lia|]). constructor.
Qed.

Lemma day_then_dash (dd : Z) (rest : list Z) :
  1 ≤ dd ≤ 31 →
  ('(a, s) ← Strptime.re_d zeros (two_points dd ++ 45 :: rest);
   '(_, s') ← Strptime.chr "-" s; [(a, s')])
  = [(two_points dd, rest)]
  ∧ Strptime.int zeros (two_points dd) = dd.
Proof.
  intros Hd. rewrite <-(Z2Nat.id dd) in * by lia.
  generalize dependent (Z.to_nat dd). intros n Hn.
  by_cases n 32%nat ltac:(split; vm_compute; reflexivity).
Qed.

Lemma month_then_dash (m : Z) (rest : list Z) :
  1 ≤ m ≤ 12 →
  ('(a, s) ← Strptime.re_m (two_points m ++ 45 :: rest);
   '(_, s') ← Strptime.chr "-" s; [(a, s')])
  = [(two_points m, rest)]
  ∧ Strptime.int zeros (two_points m) = m.
Proof.
  intros Hm. rewrite <-(Z2Nat.id m) in * by lia.
  generalize dependent (Z.to_nat m). intros n Hn.
  by_cases n 13%nat ltac:(split; vm_compute; reflexivity).
Qed.

Lemma decimal_ascii (k : Z) : 0 ≤ k ≤ 9 → Strptime.decimal zeros (48 + k) = Some k.
Proof.
  intros Hk. unfold Strptime.decimal. change (ord "0") with 48. change (ord "9") with 57.
  rewrite (proj2 (Z.ltb_lt _ _)) by lia.
  rewrite (proj2 (Z.leb_le 48 _)), (proj2 (Z.leb_le _ 57)) by lia.
  simpl. f_equal. lia.
Qed.

(** Four decimal digits are a year, matched whole. *)
Lemma year_digits (c1 c2 c3 c4 k1 k2 k3 k4 : Z) (rest : list Z) :
  Strptime.decimal zeros c1 = Some k1 → Strptime.decimal zeros c2 = Some k2 →
  Strptime.decimal zeros c3 = Some k3 → Strptime.decimal zeros c4 = Some k4 →
  c1 ≠ 32 → c2 ≠ 32 → c3 ≠ 32 → c4 ≠ 32 →
  Strptime.re_Y zeros (c1 :: c2 :: c3 :: c4 :: rest) = [([c1; c2; c3; c4], rest)]
  ∧ Strptime.int zeros [c1; c2; c3; c4] = 1000 * k1 + 100 * k2 + 10 * k3 + k4.
Proof.
  intros H1 H2 H3 H4 N1 N2 N3 N4. split.
  - unfold Strptime.re_Y, Strptime.seq, Strptime.cat, Strptime.digit, Strptime.eps.
    simpl. rewrite H1. simpl. rewrite H2. simpl. rewrite H3. simpl. rewrite H4. done.
  - unfold Strptime.int. change (ord " ") with 32. cbn [foldl].
    rewrite !(proj2 (Z.eqb_neq _ 32)) by done.
    rewrite H1, H2, H3, H4. cbn [default]. unfold id. lia.
Qed.

Lemma year_whole (y : Z) :
  0 ≤ y ≤ 9999 →
  Strptime.re_Y zeros (two_points (y / 100) ++ two_points (y `mod` 100))
  = [(two_points (y / 100) ++ two_points (y `mod` 100), [])]
  ∧ Strptime.int zeros (two_points (y / 100) ++ two_points (y `mod` 100)) = y.
Proof.
  intros Hy. unfold two_points. cbn [app].
  destruct (year_digits (48 + y / 100 / 10) (48 + (y / 100) `mod` 10)
              (48 + y `mod` 100 / 10) (48 + (y `mod` 100) `mod` 10)
              (y / 100 / 10) ((y / 100) `mod` 10)
              (y `mod` 100 / 10) ((y `mod` 100) `mod` 10) []) as [HY Hint];
    try (apply decimal_ascii; Z.to_euclidean_division_equations; lia);
    try (Z.to_euclidean_division_equations; lia).
  split; [exact HY|]. rewrite Hint. Z.to_euclidean_division_equations. lia.
Qed.

Lemma day_stage (dd : Z) (rest : list Z) :
  1 ≤ dd ≤ 31 →
  ('(d, s) ← Strptime.re_d zeros (two_points dd ++ 45 :: rest); after_day zeros d s)
  = '(m, s) ← Strptime.re_m rest; after_month zeros (two_points dd) m s.
Proof.
  intros Hd. unfold after_day.
  etrans; [apply (stage _ (λ d s', '(m, s) ← Strptime.re_m s'; after_month zeros d m s))|].
  rewrite (proj1 (day_then_dash dd rest Hd)). by rewrite bind_singleton.
Qed.

Lemma month_stage (m : Z) (d rest : list Z) :
  1 ≤ m ≤ 12 →
  ('(m', s) ← Strptime.re_m (two_points m ++ 45 :: rest); after_month zeros d m' s)
  = '(y, s) ← Strptime.re_Y zeros rest;
    [(Date (Strptime.int zeros y) (Strptime.int zeros (two_points m))
        (Strptime.int zeros d), s)].
Proof.
  intros Hm. unfold after_month.
  etrans; [apply (stage _ (λ m' s', '(y, s) ← Strptime.re_Y zeros s';
             [(Date (Strptime.int zeros y) (Strptime.int zeros m')
                 (Strptime.int zeros d), s)]))|].
  rewrite (proj1 (month_then_dash m rest Hm)). by rewrite bind_singleton.
Qed.

Lemma days_in_month_le y m : Strptime.days_in_month y m ≤ 31.
Proof.
  unfold Strptime.days_in_month.
  repeat match goal with |- context [if ?b then _ else _] => destruct b end; lia.
Qed.

Lemma strptime_format d :
  Strptime.valid_date d = true → Strptime.strptime zeros (format_date d) = Some d.
Proof.
  intros Hvalid. destruct d as [y m dd].
  pose proof Hvalid as Hfields.
  unfold Strptime.valid_date in Hfields. cbn [year month day] in Hfields.
  rewrite !andb_true_iff, !Z.leb_le in Hfields.
  pose proof (days_in_month_le y m).
  rewrite strptime_staged, format_date_points by lia.
  rewrite day_stage, month_stage by lia.
  destruct (year_whole y ltac:(lia)) as [-> Hint]. rewrite bind_singleton, Hint.
  rewrite (proj2 (month_then_dash m [] ltac:(lia))).
  rewrite (proj2 (day_then_dash dd [] ltac:(lia))).
  by rewrite Hvalid.
Qed.

End dates.

(** X16: the loader reads the whole calendar. Every date that
    [datetime.date] accepts, from year 1 to year 9999, written as two digits
    for the day, two for the month and four for the year with dashes
    between, is parsed to itself, whatever the decimal digits of the
    interpreter's Unicode database; so a record of the file with such a
    Release Date is never dropped: the loader returns, and the dataset has
    the record with that datetime, its year as release year and its other
    cells as they are in the file. *)
Theorem strptime_reads_the_calendar (w : world) (d : date) :
  Strptime.valid_date d = true →
  Strptime.strptime (decimal_zeros w) (format_date d) = Some d
  ∧ ∀ t (rec : gmap string field),
      files w !! file_path = Some (Table t) → "Release Date" ∈ header t →
      rec ∈ records t → rec !! "Release Date" = Some (FStr (format_date d)) →
      ∃ df w' ds (r : row),
        load_data w = (Returned df, w')
        ∧ objects w' !! df = Some ds
        ∧ r ∈ rows ds
        ∧ r !! "release_datetime" = Some (VTime d)
        ∧ r !! "release_year" = Some (VInt (year d))
        ∧ ∀ c, c ≠ "release_datetime" → c ≠ "release_year" →
               r !! c = value_of <$> rec !! c.
Proof.
  intros Hvalid.
  pose proof (strptime_format (decimal_zeros w) d Hvalid) as Hparse.
  split; [done|]. intros t rec Hfile Hcol Hrec Hdate.
  rewrite (load_data_table _ _ Hfile Hcol).
  eexists _, _, _,
    (<["release_year" := VInt (year d)]>
       (<["release_datetime" := VTime d]> (value_of <$> rec))).
  split; [reflexivity|]. split; [apply loaded_lookup|]. split_and!.
  - simpl. apply list_elem_of_omap. exists (value_of <$> rec). split.
    + apply list_elem_of_fmap. eauto.
    + unfold loaded_row, cell. rewrite lookup_fmap, Hdate. simpl. by rewrite Hparse.
  - by rewrite lookup_insert_ne, lookup_insert_eq.
  - by rewrite lookup_insert_eq.
  - intros c H1 H2. by rewrite !lookup_insert_ne, lookup_fmap.
Qed.

Lemma strptime_reads_the_calendar_witness :
  ∃ df w' ds (r : row),
    load_data (disk (Table example_file)) = (Returned df, w')
    ∧ objects w' !! df = Some ds
    ∧ r ∈ rows ds
    ∧ r !! "release_datetime" = Some (VTime (Date 2015 7 15))
    ∧ r !! "release_year" = Some (VInt 2015)
    ∧ ∀ c, c ≠ "release_datetime" → c ≠ "release_year" →
           r !! c = value_of <$> ({[ "Title" := FStr "B"; "Genre" := FStr "Rock";
                                     "Release Date" := FStr "15-07-2015";
                                     "Popularity" := FInt 40;
                                     "Duration" := FInt 180 ]} : gmap string field) !! c.
Proof.
  apply (proj2 (strptime_reads_the_calendar (disk (Table example_file))
                  (Date 2015 7 15) eq_refl) example_file).
  - reflexivity.
  - apply list_elem_of_In. simpl. tauto.
  - apply list_elem_of_In. simpl. tauto.
  - vm_compute. reflexivity.
Defined.

Example format_date_example : format_date (Date 2010 6 1) = "01-06-2010".
Proof. reflexivity. Qed.

Example leap_day :
  Strptime.strptime unicode_15 (format_date (Date 2012 2 29)) = Some (Date 2012 2 29)
  ∧ Strptime.strptime unicode_15 (format_date (Date 2011 2 29)) = None.
Proof. split; reflexivity. Qed.
